(** * BTC market regime detection: a shallow embedding of
    [btc_regime_detection.py] and the properties of its data pipeline.

    The script downloads hourly bars in chunks, removes duplicate
    timestamps, derives three per-bar features, fits a Gaussian HMM
    (the [hmmlearn] library), decodes the state path and tabulates
    per-regime statistics.  The numeric columns are binary64 numbers
    and are modelled with the Standard Library's [SpecFloat], where
    every operation is computed with IEEE 754 rounding.  The HMM
    trainer, the downloader and the library's two sorts (whose order
    among equal keys is their own) are external collaborators and
    enter the model as parameters. *)

From Stdlib Require Import ZArith List Bool Lia QArith Qabs.
From Stdlib Require String.
Import String.StringSyntax.
Delimit Scope string_scope with string.
From Stdlib Require Import Sorting.Sorted Sorting.Permutation.
From Stdlib Require Import Floats.SpecFloat.
Import ListNotations.

Open Scope Z_scope.

(* ------------------------------------------------------------------ *)
(** ** Binary64 numbers *)

Module F64.

Definition prec : Z := 53.
Definition emax : Z := 1024.

Definition float := spec_float.

Definition nan : float := S754_nan.
Definition of_Z (z : Z) : float := binary_normalize prec emax z 0 false.
Definition one : float := of_Z 1.

Definition add : float -> float -> float := SFadd prec emax.
Definition sub : float -> float -> float := SFsub prec emax.
Definition mul : float -> float -> float := SFmul prec emax.
Definition div : float -> float -> float := SFdiv prec emax.
Definition sqrt : float -> float := SFsqrt prec emax.

(** A decimal literal [n / 10^k], rounded to the nearest binary64
    number the way the Python parser rounds it ([n] and [10^k] are
    exactly representable for the literals used below). *)
Definition of_decimal (n : Z) (k : nat) : float :=
  div (of_Z n) (of_Z (10 ^ Z.of_nat k)).

Definition is_nan (x : float) : bool :=
  match x with S754_nan => true | _ => false end.

Definition is_inf (x : float) : bool :=
  match x with S754_infinity _ => true | _ => false end.

Definition is_finite (x : float) : bool :=
  match x with
  | S754_zero _ | S754_finite _ _ _ => true
  | S754_nan | S754_infinity _ => false
  end.

(** [x <= y] and [x < y] as numpy compares them (false on NaN). *)
Definition leb : float -> float -> bool := SFleb.
Definition ltb : float -> float -> bool := SFltb.

(** The exact rational value of a finite number (0 for the others). *)
Definition to_Q (x : float) : Q :=
  match x with
  | S754_finite s m e =>
      let n := if s then Z.neg m else Z.pos m in
      match e with
      | Z0 => inject_Z n
      | Z.pos p => inject_Z (n * 2 ^ Z.pos p)
      | Z.neg p => Qmake n (2 ^ p)
      end
  | _ => 0%Q
  end.

(** [x] lies within [tol] of the rational [q]. *)
Definition close_to (x : float) (q tol : Q) : Prop :=
  is_finite x = true /\ (Qabs.Qabs (to_Q x - q) <= tol)%Q.

(** The tolerance used when a value is compared with a decimal. *)
Definition eps : Q := 1 # 1000000000000000.

End F64.

(* ------------------------------------------------------------------ *)
(** ** Step 1a: the download chunk boundaries (lines 21-30)

    A [datetime] is a count of microseconds since [datetime.min]
    (0001-01-01 00:00) and a [timedelta] a difference of two such
    counts.  The type is bounded: [datetime.max] is the last
    microsecond of 9999-12-31, and an addition whose result leaves the
    range raises [OverflowError]. *)

Module Chunking.

Definition datetime := Z.
Definition timedelta := Z.

Definition days (n : Z) : timedelta := n * 86400 * 1000000.

(** [datetime.max]: day 3652059 of the calendar ends here. *)
Definition datetime_max : datetime := days 3652059 - 1.

Definition in_range (d : Z) : bool := (0 <=? d) && (d <=? datetime_max).

(** [d + delta] on datetimes. *)
Definition dt_add (d : datetime) (delta : timedelta)
  : String.string + datetime :=
  if in_range (d + delta) then inr (d + delta)
  else inl "OverflowError"%string.

Definition chunk_size : timedelta := days 245.

(** The loop
<<
    boundaries = []
    t = start_date
    while t < end_date:
        t_end = min(t + chunk_size, end_date)
        boundaries.append((t, t_end))
        t = t_end
>>
    as a machine on the pair [(t, boundaries)]: [loop_step] leaves the
    loop when the guard fails, raises when [t + chunk_size] overflows
    (before [min] is applied), and otherwise runs the body once. *)
Record loop_state := LoopState {
  t : datetime;
  boundaries : list (datetime * datetime)
}.

Inductive step_result :=
| Exit
| Raise (e : String.string)
| Continue (s : loop_state).

Definition loop_step (end_date : datetime) (s : loop_state)
  : step_result :=
  if t s <? end_date then
    match dt_add (t s) chunk_size with
    | inl e => Raise e
    | inr t' =>
        let t_end := Z.min t' end_date in
        Continue (LoopState t_end (boundaries s ++ [(t s, t_end)]))
    end
  else Exit.

(** Running the loop for at most [fuel] iterations; [None] means the
    loop was still running when the fuel ran out. *)
Fixpoint loop_run (fuel : nat) (end_date : datetime) (s : loop_state)
  : option (String.string + list (datetime * datetime)) :=
  match loop_step end_date s with
  | Exit => Some (inr (boundaries s))
  | Raise e => Some (inl e)
  | Continue s' =>
      match fuel with
      | O => None
      | S fuel' => loop_run fuel' end_date s'
      end
  end.

(** An iteration count that is always enough. *)
Definition iterations (start_date end_date : datetime) : nat :=
  Z.to_nat ((end_date - start_date) / chunk_size + 1).

(** Lines 24-30 as a function: the boundary list, or the exception. *)
Definition chunk_boundaries (start_date end_date : datetime)
  : String.string + list (datetime * datetime) :=
  match loop_run (iterations start_date end_date) end_date
                 (LoopState start_date []) with
  | Some r => r
  | None => inr []
  end.

(** [chained a bs b]: the intervals of [bs] follow each other from [a]
    to [b], each one starting where the previous one ends. *)
Fixpoint chained (a : datetime) (bs : list (datetime * datetime))
  (b : datetime) : Prop :=
  match bs with
  | [] => a = b
  | (s, e) :: rest => s = a /\ chained e rest b
  end.

(** Every interval is non-empty and at most one chunk long. *)
Definition chunk_sized (bs : list (datetime * datetime)) : Prop :=
  Forall (fun se => fst se < snd se /\ snd se - fst se <= chunk_size) bs.

(** The additions of the loop stay in range: the window starts at a
    datetime and ends at least one chunk before [datetime.max]. *)
Definition chunks_in_range (start_date end_date : datetime) : Prop :=
  0 <= start_date /\ end_date + chunk_size <= datetime_max.

(** Two days of the year 9999, both datetimes: 1 January and
    31 December. *)
Definition jan_1_9999 : datetime := days 3651694.
Definition dec_31_9999 : datetime := days 3652058.

End Chunking.

(* ------------------------------------------------------------------ *)
(** ** Step 1b: the downloaded frame (lines 40-41)

    A frame is a list of rows in index order.  A row carries its
    timestamp (the frame's index) and the five price columns, read as
    binary64 numbers (exact for the integer volumes the downloader
    returns, which stay below 2^53). *)

Module Frame.
Import F64.

Record bar := Bar {
  index : Z;
  Open : float;
  High : float;
  Low : float;
  Close : float;
  Volume : float
}.

Definition DataFrame := list bar.

(** [sort_index()] puts the rows in non-decreasing timestamp order.
    The library's default sort is not stable, so the order it leaves
    among rows of equal timestamp is its own.  The sort is therefore a
    parameter of the model, and [is_index_sort] says what any sort
    guarantees: the same rows, in non-decreasing timestamp order. *)
Definition ascending (df : DataFrame) : Prop :=
  StronglySorted Z.le (map index df).

Definition is_index_sort (sort_index : DataFrame -> DataFrame) : Prop :=
  forall df, Permutation df (sort_index df) /\ ascending (sort_index df).

(** Two sorts to run the model with: an insertion sort that keeps rows
    of equal timestamp in their original order, and one that reverses
    them. *)
Fixpoint insert_by_index (b : bar) (df : DataFrame) : DataFrame :=
  match df with
  | [] => [b]
  | x :: rest =>
      if index b <=? index x then b :: df
      else x :: insert_by_index b rest
  end.

Definition insertion_sort (df : DataFrame) : DataFrame :=
  fold_right insert_by_index [] df.

Fixpoint insert_after_equal (b : bar) (df : DataFrame) : DataFrame :=
  match df with
  | [] => [b]
  | x :: rest =>
      if index b <? index x then b :: df
      else x :: insert_after_equal b rest
  end.

Definition reversing_sort (df : DataFrame) : DataFrame :=
  fold_right insert_after_equal [] df.

(** [index.duplicated(keep="first")]: the mask that is [true] at every
    position whose timestamp already occurred at an earlier position. *)
Fixpoint duplicated_from (seen : list Z) (idx : list Z) : list bool :=
  match idx with
  | [] => []
  | i :: rest => existsb (Z.eqb i) seen :: duplicated_from (i :: seen) rest
  end.

Definition duplicated (idx : list Z) : list bool := duplicated_from [] idx.

(** Boolean-mask selection [data[mask]]. *)
Fixpoint select (mask : list bool) (df : DataFrame) : DataFrame :=
  match mask, df with
  | m :: mask', b :: df' =>
      if m then b :: select mask' df' else select mask' df'
  | _, _ => []
  end.

(** Duplicate removal with an explicit set of timestamps seen so far. *)
Definition dedup_from (seen : list Z) (df : DataFrame) : DataFrame :=
  select (map negb (duplicated_from seen (map index df))) df.

(** [data[~data.index.duplicated(keep="first")]] *)
Definition drop_duplicated (df : DataFrame) : DataFrame :=
  select (map negb (duplicated (map index df))) df.

(** Lines 40-41 on the list of downloaded frames. *)
Definition concat_sort_dedup (sort_index : DataFrame -> DataFrame)
  (frames : list DataFrame) : DataFrame :=
  drop_duplicated (sort_index (concat frames)).

(** The first row of a frame that carries the timestamp [ts]. *)
Definition first_at (ts : Z) (df : DataFrame) : option bar :=
  find (fun b => index b =? ts) df.

End Frame.

(* ------------------------------------------------------------------ *)
(** ** Step 2: feature engineering (lines 51-57, 62-63) *)

Module Features.
Import F64 Frame.

(** [pct_change()] is called without arguments, so the fill applied
    before the division is the library's default: releases up to 2.x
    forward-fill missing values first ([pad]), later ones do not
    ([no_fill]).  Both are modelled. *)
Inductive fill_method := pad | no_fill.

(** Forward fill: a missing value takes the last value seen before. *)
Fixpoint ffill_from (last : float) (xs : list float) : list float :=
  match xs with
  | [] => []
  | x :: rest =>
      let v := if is_nan x then last else x in
      v :: ffill_from v rest
  end.

Definition fill (m : fill_method) (xs : list float) : list float :=
  match m with
  | pad => ffill_from nan xs
  | no_fill => xs
  end.

(** [shift(1)]: every value moves one row down, the first is missing. *)
Definition shift (xs : list float) : list float :=
  match xs with
  | [] => []
  | _ :: _ => nan :: removelast xs
  end.

Fixpoint zip_with {A B C} (f : A -> B -> C) (xs : list A) (ys : list B)
  : list C :=
  match xs, ys with
  | x :: xs', y :: ys' => f x y :: zip_with f xs' ys'
  | _, _ => []
  end.

(** [pct_change]: [data / data.shift(1) - 1] on the filled column. *)
Definition pct_change (m : fill_method) (xs : list float) : list float :=
  let data := fill m xs in
  zip_with (fun x prev => sub (div x prev) one) data (shift data).

(** A row of the frame once the three feature columns exist. *)
Record frow := FRow {
  src : bar;
  return_ : float;
  range : float;
  vol_change : float
}.

(** Lines 51-53. *)
Definition add_features (m : fill_method) (data : DataFrame) : list frow :=
  let ret := pct_change m (map Close data) in
  let rng := map (fun b => div (sub (High b) (Low b)) (Close b)) data in
  let vch := pct_change m (map Volume data) in
  zip_with (fun b f => FRow b (fst f) (fst (snd f)) (snd (snd f)))
           data (combine ret (combine rng vch)).

(** Line 56: [replace([inf, -inf], nan)] acts on every column. *)
Definition replace_inf (x : float) : float :=
  if is_inf x then nan else x.

Definition replace_inf_bar (b : bar) : bar :=
  Bar (index b) (replace_inf (Open b)) (replace_inf (High b))
      (replace_inf (Low b)) (replace_inf (Close b))
      (replace_inf (Volume b)).

Definition replace_inf_row (r : frow) : frow :=
  FRow (replace_inf_bar (src r)) (replace_inf (return_ r))
       (replace_inf (range r)) (replace_inf (vol_change r)).

(** Line 57: [dropna(subset=["return", "range", "vol_change"])]. *)
Definition notna_features (r : frow) : bool :=
  negb (is_nan (return_ r)) && negb (is_nan (range r))
  && negb (is_nan (vol_change r)).

Definition dropna (rows : list frow) : list frow :=
  filter notna_features rows.

(** Lines 51-57 together. *)
Definition FeatureBuilder (m : fill_method) (data : DataFrame)
  : list frow :=
  dropna (map replace_inf_row (add_features m data)).

(** Lines 62-63: the observation matrix [X]. *)
Definition observation := (float * float * float)%type.

Definition features (r : frow) : observation :=
  (return_ r, range r, vol_change r).

Definition ObservationMatrix (rows : list frow) : list observation :=
  map features rows.

(** The formulas that the three columns are meant to hold at a row
    with predecessor [prev]. *)
Definition return_formula (prev cur : bar) : float :=
  sub (div (Close cur) (Close prev)) one.

Definition range_formula (cur : bar) : float :=
  div (sub (High cur) (Low cur)) (Close cur).

Definition vol_change_formula (prev cur : bar) : float :=
  sub (div (Volume cur) (Volume prev)) one.

(** [Subseq xs ys]: [xs] is [ys] with some elements left out. *)
Inductive Subseq {A} : list A -> list A -> Prop :=
| Subseq_nil : Subseq [] []
| Subseq_skip x xs ys : Subseq xs ys -> Subseq xs (x :: ys)
| Subseq_keep x xs ys : Subseq xs ys -> Subseq (x :: xs) (x :: ys).

End Features.

(** Sample inputs on which the definitions are run. *)
Module Samples.
Import F64 Frame.

(** A bar at hour [ts] with the given close and volume and a high and
    low one unit either side of the close. *)
Definition sample_bar (ts close volume : Z) : bar :=
  Bar (ts * 3600000000) (of_Z close) (of_Z (close + 1)) (of_Z (close - 1))
      (of_Z close) (of_Z volume).

Definition sb0 : bar := sample_bar 0 100 10.
Definition sb1 : bar := sample_bar 1 110 20.
Definition sb2 : bar := sample_bar 2 99 15.

Definition sample_bars : DataFrame := [sb0; sb1; sb2].

(** Nine hourly bars, which give eight usable rows. *)
Definition hourly_bars : DataFrame :=
  [sample_bar 0 100 10; sample_bar 1 110 20; sample_bar 2 99 15;
   sample_bar 3 101 30; sample_bar 4 105 25; sample_bar 5 103 40;
   sample_bar 6 108 35; sample_bar 7 107 50; sample_bar 8 111 45].

(** Two downloads that overlap in the bar of hour 2. *)
Definition overlapping_frames : list DataFrame :=
  [[sample_bar 1 100 10; sample_bar 2 110 20];
   [sample_bar 2 111 21; sample_bar 3 99 15]].

(** Two downloads that arrive out of order and overlap in hour 2:
    their concatenation is not in timestamp order. *)
Definition shuffled_frames : list DataFrame :=
  [[sample_bar 2 110 20; sample_bar 3 99 15];
   [sample_bar 1 100 10; sample_bar 2 111 21]].

(** A bar with a zero volume followed by a normal one: the volume
    change of the second is infinite. *)
Definition zero_volume_bars : DataFrame :=
  [sample_bar 0 100 10; sample_bar 1 110 0; sample_bar 2 99 15;
   sample_bar 3 100 30].

End Samples.

(* ------------------------------------------------------------------ *)
(** ** Step 5: the per-regime summary table (lines 80-84) *)

Module Summary.
Import F64 Frame Features.

(** A row of the frame once the [state] column exists. *)
Record srow := SRow {
  feat : frow;
  state : nat
}.

(** A line of the summary table: the group key and the three
    aggregates named in [agg]. *)
Record entry := Entry {
  label : nat;
  Mean_Return : float;
  Volatility : float;
  Count : nat
}.

(** The group keys of [groupby("state")]: the labels that occur in the
    column, each once, in ascending order. *)
Fixpoint insert_key (k : nat) (ks : list nat) : list nat :=
  match ks with
  | [] => [k]
  | x :: rest =>
      if (k <? x)%nat then k :: ks
      else if (k =? x)%nat then ks
      else x :: insert_key k rest
  end.

Definition group_keys (rows : list srow) : list nat :=
  fold_right insert_key [] (map state rows).

(** The [return] values of the rows labelled [k], in row order. *)
Definition group (rows : list srow) (k : nat) : list float :=
  map (fun r => return_ (feat r))
      (filter (fun r => (state r =? k)%nat) rows).

(** ["count"]: the number of values that are not missing. *)
Definition count (xs : list float) : nat :=
  List.length (filter (fun x => negb (is_nan x)) xs).

(** [a] may stand before [b] in a column sorted in descending order
    with missing values last. *)
Definition desc_na_last (a b : float) : Prop :=
  is_nan b = true \/ (is_nan a = false /\ leb b a = true).

(** Descending order among entries whose mean is a number. *)
Definition geb_mean (a b : entry) : Prop :=
  leb (Mean_Return b) (Mean_Return a) = true.

(** [sort_values("Mean_Return", ascending=False)] returns the same
    entries in descending order of mean, those with a missing mean
    last.  The library's default sort is not stable, so the order it
    leaves among entries of equal mean is its own: the sort is a
    parameter of the model, and [is_desc_sort] says what any such sort
    guarantees. *)
Definition is_desc_sort (sort_values : list entry -> list entry) : Prop :=
  forall es,
    Permutation es (sort_values es)
    /\ StronglySorted
         (fun a b => desc_na_last (Mean_Return a) (Mean_Return b))
         (sort_values es).

Section Aggregates.

(** ["mean"] and ["std"] are the library's float reductions; the table
    is built the same way whatever they round to. *)
Variables mean std : list float -> float.
Variable sort_values : list entry -> list entry.

(** [groupby("state")["return"].agg(...)] *)
Definition agg (rows : list srow) : list entry :=
  map (fun k => let g := group rows k in
                Entry k (mean g) (std g) (count g))
      (group_keys rows).

Definition summary (rows : list srow) : list entry :=
  sort_values (agg rows).

End Aggregates.

(** A sort to run the model with: an insertion sort that keeps entries
    of equal mean in their previous order and puts the entries with a
    missing mean last. *)
Fixpoint insert_desc (e : entry) (es : list entry) : list entry :=
  match es with
  | [] => [e]
  | x :: rest =>
      if leb (Mean_Return x) (Mean_Return e) then e :: es
      else x :: insert_desc e rest
  end.

Definition sort_values_desc (es : list entry) : list entry :=
  fold_right insert_desc []
             (filter (fun e => negb (is_nan (Mean_Return e))) es)
  ++ filter (fun e => is_nan (Mean_Return e)) es.

(** Reductions to run the model with.  They follow the accumulation of
    the library's grouped reductions in binary64: the mean is a
    compensated sum of the values that are not missing, divided by
    their number; the standard deviation keeps a running mean and a
    running sum of squared deviations, removes one degree of freedom,
    and is missing below two values. *)
Record kahan := Kahan {
  sumx : float;
  compensation : float;
  nobs : nat
}.

Definition kahan_step (a : kahan) (val : float) : kahan :=
  if is_nan val then a
  else
    let y := sub val (compensation a) in
    let t := add (sumx a) y in
    let c := sub (sub t (sumx a)) y in
    Kahan t (if is_nan c then of_Z 0 else c) (S (nobs a)).

Definition mean_f64 (xs : list float) : float :=
  let a := fold_left kahan_step xs (Kahan (of_Z 0) (of_Z 0) 0) in
  match nobs a with
  | O => nan
  | S _ => div (sumx a) (of_Z (Z.of_nat (nobs a)))
  end.

Record welford := Welford {
  w_nobs : nat;
  w_mean : float;
  w_out : float
}.

Definition welford_step (a : welford) (val : float) : welford :=
  if is_nan val then a
  else
    let n := S (w_nobs a) in
    let oldmean := w_mean a in
    let m := add oldmean (div (sub val oldmean) (of_Z (Z.of_nat n))) in
    Welford n m (add (w_out a) (mul (sub val m) (sub val oldmean))).

Definition std_f64 (xs : list float) : float :=
  let a := fold_left welford_step xs (Welford 0 (of_Z 0) (of_Z 0)) in
  match w_nobs a with
  | O | S O => nan
  | S (S _) => sqrt (div (w_out a) (of_Z (Z.of_nat (w_nobs a) - 1)))
  end.

(** Three decoded rows, one per label, whose returns are -0.01, 0.02
    and 0.00. *)
Definition labelled (k : nat) (ret : float) : srow :=
  SRow (FRow (Samples.sample_bar (Z.of_nat k) 100 10) ret (of_Z 0) (of_Z 0))
       k.

Definition three_regimes : list srow :=
  [labelled 0 (of_decimal (-1) 2); labelled 1 (of_decimal 2 2);
   labelled 2 (of_decimal 0 2)].

End Summary.

(* ------------------------------------------------------------------ *)
(** ** The script as a whole

    The script is a straight-line program that talks to two external
    collaborators, the downloader and the HMM library.  It is modelled
    in a monad that carries the trace of the calls made to them and
    stops at the first exception. *)

Module Pipeline.
Import F64 Chunking Frame Features Summary.

Inductive covariance := spherical | diag | full | tied.

(** The keyword arguments of [GaussianHMM(...)] at lines 65-70. *)
Record HMMConfig := Config {
  n_components : nat;
  covariance_type : covariance;
  n_iter : nat;
  random_state : Z
}.

Definition model_config : HMMConfig :=
  Config 7 full 1000 42.

(** An exception is identified by the name of its class. *)
Definition exn := String.string.

Inductive event :=
| Download (s e : datetime)
| Fit (cfg : HMMConfig) (X : list observation)
| Predict (X : list observation).

Definition is_fit (ev : event) : bool :=
  match ev with Fit _ _ => true | _ => false end.

Definition M (A : Type) : Type := list event -> list event * (exn + A).

Definition ret {A} (a : A) : M A := fun tr => (tr, inr a).

Definition bind {A B} (m : M A) (k : A -> M B) : M B :=
  fun tr =>
    match m tr with
    | (tr', inl e) => (tr', inl e)
    | (tr', inr a) => k a tr'
    end.

Definition raise {A} (e : exn) : M A := fun tr => (tr, inl e).

Definition emit (ev : event) : M unit := fun tr => (tr ++ [ev], inr tt).

Definition lift {A} (r : exn + A) : M A := fun tr => (tr, r).

Notation "x <- m ;; k" := (bind m (fun x => k))
  (at level 61, m at next level, right associativity).
Notation "m ;; k" := (bind m (fun _ => k))
  (at level 61, right associativity).

Section Script.

(** The collaborators: [yf.download], [model.fit] (which returns the
    fitted parameters or raises), [model.predict], the library's two
    sorts, the two float reductions of the summary, and the fill
    default of [pct_change]. *)
Context {Params : Type}.
Variable yf_download : datetime -> datetime -> DataFrame.
Variable hmm_fit : HMMConfig -> list observation -> exn + Params.
Variable hmm_predict : Params -> list observation -> exn + list nat.
Variable sort_index : DataFrame -> DataFrame.
Variable sort_values : list entry -> list entry.
Variables mean std : list float -> float.
Variable fill_default : fill_method.

(** Lines 33-38: one download per chunk, empty results skipped. *)
Fixpoint download_chunks (bs : list (datetime * datetime))
  (frames : list DataFrame) : M (list DataFrame) :=
  match bs with
  | [] => ret frames
  | (s, e) :: rest =>
      emit (Download s e) ;;
      let df := yf_download s e in
      download_chunks rest
        (match df with [] => frames | _ => frames ++ [df] end)
  end.

(** Lines 21-41.  The subtraction at line 22 and the additions of the
    chunking loop raise when they leave the range of [datetime];
    [pd.concat] rejects an empty list of frames. *)
Definition load_data (now : datetime) : M DataFrame :=
  let end_date := now in
  start_date <- lift (dt_add end_date (- days 729)) ;;
  bs <- lift (chunk_boundaries start_date end_date) ;;
  frames <- download_chunks bs [] ;;
  match frames with
  | [] => raise "ValueError"%string
  | _ => ret (concat_sort_dedup sort_index frames)
  end.

(** A decoded frame with its summary table. *)
Definition report := (list srow * list entry)%type.

(** Lines 51-84.  Assigning the [state] column needs one label per
    row. *)
Definition train_and_decode (data : DataFrame) : M report :=
  let rows := FeatureBuilder fill_default data in
  let X := ObservationMatrix rows in
  emit (Fit model_config X) ;;
  params <- lift (hmm_fit model_config X) ;;
  emit (Predict X) ;;
  states <- lift (hmm_predict params X) ;;
  if (List.length states =? List.length rows)%nat then
    let decoded := zip_with SRow rows states in
    ret (decoded, summary mean std sort_values decoded)
  else raise "ValueError"%string.

Definition main (now : datetime) : M report :=
  data <- load_data now ;;
  train_and_decode data.

Definition run (now : datetime) : list event * (exn + report) :=
  main now [].

End Script.

(** The row threshold the specification names. *)
Definition min_rows : nat := 50.

(** Times of the run from which the window and its chunks stay in
    range: at least 729 days after [datetime.min] and 245 days before
    [datetime.max]. *)
Definition clock_range (now : datetime) : Prop :=
  days 729 <= now /\ now + chunk_size <= datetime_max.

(** Sample collaborators: a downloader that returns nine hourly bars
    for the first chunk and nothing afterwards, a trainer that
    accepts any matrix, and a decoder that alternates labels 0 and 2. *)
Definition sample_now : datetime := days 740000.

Definition sample_download (s e : datetime) : DataFrame :=
  if s =? sample_now - days 729 then Samples.hourly_bars else [].

Definition sample_fit (cfg : HMMConfig) (X : list observation)
  : exn + unit := inr tt.

Fixpoint alternate (k : nat) (X : list observation) : list nat :=
  match X with
  | [] => []
  | _ :: rest => k :: alternate (2 - k) rest
  end.

Definition sample_predict (p : unit) (X : list observation)
  : exn + list nat := inr (alternate 0 X).

Definition sample_run : list event * (exn + report) :=
  run sample_download sample_fit sample_predict insertion_sort
      sort_values_desc mean_f64 std_f64 pad sample_now.

(** The decoded frame of the sample run: eight rows labelled
    0, 2, 0, 2, ... *)
Definition sample_decoded : list srow :=
  let rows := FeatureBuilder pad Samples.hourly_bars in
  zip_with SRow rows (alternate 0 (ObservationMatrix rows)).

End Pipeline.

(* ------------------------------------------------------------------ *)
(** ** The shape of the chunk list *)

Module ChunkShape.
Import Chunking.

(** [chunks_from t end_date bs]: [bs] is the list the loop appends
    when it is entered at [t]: nothing when [t] has reached
    [end_date], otherwise the interval from [t] to
    [min(t + chunk_size, end_date)] followed by the chunks from there. *)
Fixpoint chunks_from (t0 end_date : datetime)
  (bs : list (datetime * datetime)) : Prop :=
  match bs with
  | [] => end_date <= t0
  | (s, e) :: rest =>
      t0 < end_date /\ s = t0 /\ e = Z.min (t0 + chunk_size) end_date
      /\ chunks_from e end_date rest
  end.

(** Every interval but the last one is a full chunk. *)
Fixpoint full_but_last (bs : list (datetime * datetime)) : Prop :=
  match bs with
  | [] => True
  | (s, e) :: rest =>
      match rest with
      | [] => True
      | _ :: _ => e - s = chunk_size /\ full_but_last rest
      end
  end.

(** The number of chunks needed for a window: the length of the window
    divided by the chunk size, rounded up. *)
Definition chunk_count (start_date end_date : datetime) : Z :=
  (end_date - start_date + chunk_size - 1) / chunk_size.

(** Line 22: the start of the script's window. *)
Definition window_start (now : datetime) : datetime := now - days 729.

End ChunkShape.

(* ------------------------------------------------------------------ *)
(** ** What the download loop gathers (lines 33-38) *)

Module Gathered.
Import Chunking Frame Pipeline.

(** [not df.empty] *)
Definition not_empty (df : DataFrame) : bool :=
  match df with [] => false | _ :: _ => true end.

(** The frames the loop keeps: the download of every chunk, in chunk
    order, without the empty ones. *)
Definition kept_frames (yf_download : datetime -> datetime -> DataFrame)
  (bs : list (datetime * datetime)) : list DataFrame :=
  filter not_empty (map (fun se => yf_download (fst se) (snd se)) bs).

(** The download calls of a chunk list. *)
Definition download_events (bs : list (datetime * datetime))
  : list event :=
  map (fun se => Download (fst se) (snd se)) bs.

(** The three chunks of a run at time [now], and its three download
    calls. *)
Definition script_chunks (now : datetime) : list (datetime * datetime) :=
  [(now - days 729, now - days 484);
   (now - days 484, now - days 239);
   (now - days 239, now)].

Definition script_downloads (now : datetime) : list event :=
  download_events (script_chunks now).

End Gathered.

(* ------------------------------------------------------------------ *)
(** ** The observation matrix seen column-wise *)

Module Columns.
Import F64 Frame Features.

Definition is_zero (x : float) : bool :=
  match x with S754_zero _ => true | _ => false end.

(** The four columns that lines 51-53 read. *)
Definition inputs (b : bar) : float * float * float * float :=
  (High b, Low b, Close b, Volume b).

(** Lines 56-57 on a row of the matrix alone. *)
Definition replace_inf_obs (x : observation) : observation :=
  (replace_inf (fst (fst x)), replace_inf (snd (fst x)), replace_inf (snd x)).

Definition notna_obs (x : observation) : bool :=
  negb (is_nan (fst (fst x))) && negb (is_nan (snd (fst x)))
  && negb (is_nan (snd x)).

(** The timestamp of an output row. *)
Definition timestamp (r : frow) : Z := index (src r).

End Columns.

(* ------------------------------------------------------------------ *)
(** ** Step 6: what is drawn (lines 93-115) *)

Module Plot.
Import F64 Frame Features Summary.

(** [data.iloc[-n:]]: the last [n] rows, or all of them when there are
    fewer. *)
Definition iloc_last {A} (n : nat) (rows : list A) : list A :=
  skipn (List.length rows - n) rows.

(** Line 93. *)
Definition last500 (data : list srow) : list srow := iloc_last 500 data.

(** A point of the chart: a timestamp and a close. *)
Definition point := (Z * float)%type.

Definition point_of (r : srow) : point :=
  (index (src (feat r)), Close (src (feat r))).

(** Line 98: the grey line runs through every row of the window. *)
Definition line_points (rows : list srow) : list point :=
  map point_of rows.

(** Lines 105-115: for each state present in the window, in ascending
    order ([sorted(last500["state"].unique())]), one scatter series of
    the rows in that state, with the state as legend entry. *)
Definition scatter_series (rows : list srow) : list (nat * list point) :=
  map (fun state_id =>
         (state_id,
          map point_of (filter (fun r => (state r =? state_id)%nat) rows)))
      (group_keys rows).

End Plot.

(* ================================================================== *)
(** * Properties *)

(* ------------------------------------------------------------------ *)
(** ** The chunking loop *)

Section ChunkingFacts.
Import Chunking.

Lemma chunk_size_pos : 0 < chunk_size.
Proof. reflexivity. Qed.

Lemma dt_add_in_range d delta :
  0 <= d + delta <= datetime_max -> dt_add d delta = inr (d + delta).
Proof.
  intros [H0 H1]. unfold dt_add, in_range.
  destruct (Z.leb_spec 0 (d + delta)); [|lia].
  destruct (Z.leb_spec (d + delta) datetime_max); [reflexivity|lia].
Qed.

(** More fuel never changes a result that was already reached. *)
Lemma loop_run_more_fuel fuel : forall fuel' end_date s r,
  (fuel <= fuel')%nat ->
  loop_run fuel end_date s = Some r ->
  loop_run fuel' end_date s = Some r.
Proof.
  induction fuel as [|fuel IH]; intros fuel' end_date s r Hle Hrun.
  - destruct fuel'; simpl in *;
      destruct (loop_step end_date s); congruence.
  - destruct fuel' as [|fuel']; [lia|].
    simpl in *. destruct (loop_step end_date s); try assumption.
    apply IH; [lia|assumption].
Qed.

(** The loop always comes to an end, with a list or an exception. *)
Lemma loop_run_total fuel : forall end_date t0 acc,
  end_date - t0 <= Z.of_nat fuel * chunk_size ->
  exists r, loop_run fuel end_date (LoopState t0 acc) = Some r.
Proof.
  pose proof chunk_size_pos as Hc.
  induction fuel as [|fuel IH]; intros end_date t0 acc Hfuel;
    cbn [loop_run]; unfold loop_step; cbn [t boundaries];
    destruct (Z.ltb_spec t0 end_date) as [Hlt|Hge]; eauto; try lia.
  unfold dt_add. destruct (in_range (t0 + chunk_size)); eauto.
  apply IH. nia.
Qed.

(** The loop invariant: from a datetime [t0 <= end_date], with
    [end_date] a chunk away from [datetime.max], no addition
    overflows, fuel for the remaining distance is enough, and what the
    loop appends is a chain of chunk-sized intervals from [t0] to
    [end_date]. *)
Lemma loop_run_chain fuel : forall end_date t0 acc,
  0 <= t0 <= end_date ->
  end_date + chunk_size <= datetime_max ->
  end_date - t0 <= Z.of_nat fuel * chunk_size ->
  exists bs, loop_run fuel end_date (LoopState t0 acc)
             = Some (inr (acc ++ bs))
             /\ chained t0 bs end_date /\ chunk_sized bs.
Proof.
  pose proof chunk_size_pos as Hc.
  induction fuel as [|fuel IH]; intros end_date t0 acc Hle Hmax Hfuel.
  - exists []. assert (t0 = end_date) by lia. subst t0.
    simpl. unfold loop_step. simpl. rewrite Z.ltb_irrefl.
    rewrite app_nil_r. repeat split. constructor.
  - cbn [loop_run]. unfold loop_step. cbn [t boundaries].
    destruct (Z.ltb_spec t0 end_date) as [Hlt|Hge].
    + rewrite dt_add_in_range by lia.
      set (t_end := Z.min (t0 + chunk_size) end_date).
      assert (Ht : t0 < t_end /\ t_end <= end_date
                   /\ t_end - t0 <= chunk_size
                   /\ end_date - t_end <= Z.of_nat fuel * chunk_size)
        by (unfold t_end; nia).
      destruct Ht as (H1 & H2 & H3 & H4).
      destruct (IH end_date t_end (acc ++ [(t0, t_end)])) as
        (bs & Hrun & Hch & Hsz); [lia|assumption|assumption|].
      exists ((t0, t_end) :: bs). rewrite <- app_assoc in Hrun.
      split; [exact Hrun|]. split; [simpl; auto|].
      constructor; [simpl; lia | assumption].
    + exists []. assert (t0 = end_date) by lia. subst t0.
      rewrite app_nil_r. repeat split. constructor.
Qed.

Lemma iterations_enough start_date end_date :
  end_date - start_date
    <= Z.of_nat (iterations start_date end_date) * chunk_size.
Proof.
  unfold iterations. pose proof chunk_size_pos as Hc.
  destruct (Z.le_gt_cases start_date end_date) as [Hle|Hgt].
  - rewrite Z2Nat.id.
    + pose proof (Z.mul_succ_div_gt (end_date - start_date) chunk_size Hc).
      lia.
    + assert (0 <= (end_date - start_date) / chunk_size)
        by (apply Z.div_pos; lia). lia.
  - pose proof (Nat2Z.is_nonneg
                  (Z.to_nat ((end_date - start_date) / chunk_size + 1))).
    nia.
Qed.

(** C10, as the code has it.  The chunking loop always comes to an
    end, with a boundary list or with the [OverflowError] of
    [t + chunk_size].  For every [start_date < end_date] with
    [end_date] at least 245 days before [datetime.max] (as is the
    current time) no addition overflows, and the boundary list is
    non-empty, starts at [start_date], has every interval begin where
    the previous one ends, has intervals of positive length at most
    245 days, and ends exactly at [end_date]. *)
Theorem chunking_terminates_and_partitions start_date end_date :
  (exists n r, forall fuel, (n <= fuel)%nat ->
     loop_run fuel end_date (LoopState start_date []) = Some r)
  /\ (start_date < end_date ->
      chunks_in_range start_date end_date ->
      exists n bs,
        (forall fuel, (n <= fuel)%nat ->
           loop_run fuel end_date (LoopState start_date [])
           = Some (inr bs))
        /\ chunk_boundaries start_date end_date = inr bs
        /\ bs <> []
        /\ chained start_date bs end_date
        /\ chunk_sized bs
        /\ chunk_size = days 245).
Proof.
  split.
  - destruct (loop_run_total (iterations start_date end_date)
                end_date start_date []) as (r & Hr);
      [apply iterations_enough|].
    exists (iterations start_date end_date), r.
    intros fuel Hfuel. eapply loop_run_more_fuel; eassumption.
  - intros Hlt [H0 Hmax].
    destruct (loop_run_chain (iterations start_date end_date)
                end_date start_date [])
      as (bs & Hrun & Hch & Hsz);
      [lia | assumption | apply iterations_enough |].
    simpl in Hrun.
    exists (iterations start_date end_date), bs.
    split; [|split; [|split; [|repeat split; assumption]]].
    + intros fuel Hfuel. eapply loop_run_more_fuel; eassumption.
    + unfold chunk_boundaries. now rewrite Hrun.
    + intros ->. simpl in Hch. lia.
Qed.

Lemma chunking_terminates_and_partitions_witness :
  0 < days 729 /\
  exists n bs,
    (forall fuel, (n <= fuel)%nat ->
       loop_run fuel (days 729) (LoopState 0 []) = Some (inr bs))
    /\ chunk_boundaries 0 (days 729) = inr bs
    /\ bs <> []
    /\ chained 0 bs (days 729)
    /\ chunk_sized bs
    /\ chunk_size = days 245.
Proof.
  split; [reflexivity|].
  apply (proj2 (chunking_terminates_and_partitions 0 (days 729))).
  - reflexivity.
  - split; [discriminate|discriminate].
Defined.

Lemma year_9999_overflows :
  loop_run 1 dec_31_9999 (LoopState jan_1_9999 [])
  = Some (inl "OverflowError"%string).
Proof. vm_compute. reflexivity. Qed.

(** C10 fails on the code.  From 1 January to 31 December 9999, both
    of them datetimes, the second pass of the loop adds 245 days to
    3 September 9999 and raises [OverflowError]: no boundary list is
    produced. *)
Lemma chunking_overflows_in_year_9999 :
  ~ (forall start_date end_date,
       in_range start_date = true -> in_range end_date = true ->
       start_date < end_date ->
       exists n bs,
         (forall fuel, (n <= fuel)%nat ->
            loop_run fuel end_date (LoopState start_date [])
            = Some (inr bs))
         /\ chained start_date bs end_date).
Proof.
  intros H.
  destruct (H jan_1_9999 dec_31_9999) as (n & bs & Hrun & _);
    [reflexivity|reflexivity|reflexivity|].
  specialize (Hrun (Nat.max n 1) (Nat.le_max_l n 1)).
  rewrite (loop_run_more_fuel 1 (Nat.max n 1) _ _ _
             (Nat.le_max_r n 1) year_9999_overflows) in Hrun.
  discriminate.
Qed.

(** The script's own window of 729 days is cut into three chunks. *)
Example chunk_boundaries_729 :
  chunk_boundaries 0 (days 729)
  = inr [(0, days 245); (days 245, days 490); (days 490, days 729)].
Proof. vm_compute. reflexivity. Qed.

End ChunkingFacts.

(* ------------------------------------------------------------------ *)
(** ** Sorting and duplicate removal *)

Section FrameFacts.
Import Frame.

Lemma insert_by_index_perm b df :
  Permutation (b :: df) (insert_by_index b df).
Proof.
  induction df as [|x rest IH]; simpl; [reflexivity|].
  destruct (index b <=? index x); [reflexivity|].
  rewrite perm_swap. now constructor.
Qed.

Lemma insertion_sort_perm df : Permutation df (insertion_sort df).
Proof.
  induction df as [|b rest IH]; simpl; [constructor|].
  rewrite <- insert_by_index_perm. now constructor.
Qed.

Lemma insert_by_index_sorted b df :
  StronglySorted Z.le (map index df) ->
  StronglySorted Z.le (map index (insert_by_index b df)).
Proof.
  induction df as [|x rest IH]; simpl; intros Hs.
  - repeat constructor.
  - inversion Hs as [|? ? Hrest Hall]; subst.
    destruct (Z.leb_spec (index b) (index x)) as [Hle|Hgt]; simpl.
    + constructor; [assumption|].
      constructor; [assumption|].
      eapply Forall_impl; [|exact Hall]. simpl. intros; lia.
    + constructor; [auto|].
      rewrite Forall_forall in *. intros ts Hin.
      apply in_map_iff in Hin. destruct Hin as (y & <- & Hy).
      apply (Permutation_in _ (Permutation_sym (insert_by_index_perm b rest)))
        in Hy.
      destruct Hy as [<-|Hy]; [lia|].
      apply Hall. now apply in_map.
Qed.

Lemma insertion_sort_ok : is_index_sort insertion_sort.
Proof.
  intros df. split; [apply insertion_sort_perm|].
  unfold ascending. induction df as [|b rest IH]; simpl; [constructor|].
  now apply insert_by_index_sorted.
Qed.

Lemma insert_after_equal_perm b df :
  Permutation (b :: df) (insert_after_equal b df).
Proof.
  induction df as [|x rest IH]; simpl; [reflexivity|].
  destruct (index b <? index x); [reflexivity|].
  rewrite perm_swap. now constructor.
Qed.

Lemma insert_after_equal_sorted b df :
  StronglySorted Z.le (map index df) ->
  StronglySorted Z.le (map index (insert_after_equal b df)).
Proof.
  induction df as [|x rest IH]; simpl; intros Hs.
  - repeat constructor.
  - inversion Hs as [|? ? Hrest Hall]; subst.
    destruct (Z.ltb_spec (index b) (index x)) as [Hlt|Hge]; simpl.
    + constructor; [assumption|].
      constructor; [lia|].
      eapply Forall_impl; [|exact Hall]. simpl. intros; lia.
    + constructor; [auto|].
      rewrite Forall_forall in *. intros ts Hin.
      apply in_map_iff in Hin. destruct Hin as (y & <- & Hy).
      apply (Permutation_in _
               (Permutation_sym (insert_after_equal_perm b rest))) in Hy.
      destruct Hy as [<-|Hy]; [lia|].
      apply Hall. now apply in_map.
Qed.

Lemma reversing_sort_ok : is_index_sort reversing_sort.
Proof.
  intros df. split.
  - induction df as [|b rest IH]; simpl; [constructor|].
    rewrite <- insert_after_equal_perm. now constructor.
  - unfold ascending. induction df as [|b rest IH]; simpl; [constructor|].
    now apply insert_after_equal_sorted.
Qed.

Lemma dedup_from_cons seen b df :
  dedup_from seen (b :: df)
  = if existsb (Z.eqb (index b)) seen
    then dedup_from (index b :: seen) df
    else b :: dedup_from (index b :: seen) df.
Proof.
  unfold dedup_from. simpl.
  now destruct (existsb (Z.eqb (index b)) seen).
Qed.

Lemma existsb_eqb_In ts seen :
  existsb (Z.eqb ts) seen = true <-> In ts seen.
Proof.
  rewrite existsb_exists. split.
  - intros (x & Hin & Heq). apply Z.eqb_eq in Heq. now subst.
  - intros Hin. exists ts. split; [assumption|apply Z.eqb_refl].
Qed.

Lemma dedup_from_In seen df b :
  In b (dedup_from seen df) -> In b df /\ ~ In (index b) seen.
Proof.
  revert seen. induction df as [|x rest IH]; intros seen; [intros []|].
  rewrite dedup_from_cons.
  destruct (existsb (Z.eqb (index x)) seen) eqn:Hex.
  - intros Hin. destruct (IH _ Hin) as [H1 H2]. split; [now right|].
    intros Hs. apply H2. now right.
  - intros [<-|Hin].
    + split; [now left|]. rewrite <- existsb_eqb_In. congruence.
    + destruct (IH _ Hin) as [H1 H2]. split; [now right|].
      intros Hs. apply H2. now right.
Qed.

(** On a frame sorted by timestamp the surviving timestamps strictly
    increase. *)
Lemma dedup_from_increasing seen df :
  StronglySorted Z.le (map index df) ->
  StronglySorted Z.lt (map index (dedup_from seen df)).
Proof.
  revert seen. induction df as [|x rest IH]; intros seen Hs;
    [constructor|].
  simpl in Hs. inversion Hs as [|? ? Hrest Hall]; subst.
  rewrite dedup_from_cons.
  destruct (existsb (Z.eqb (index x)) seen); [now apply IH|].
  simpl. constructor; [now apply IH|].
  rewrite Forall_forall in *. intros ts Hin.
  apply in_map_iff in Hin. destruct Hin as (y & <- & Hy).
  apply dedup_from_In in Hy. destruct Hy as [Hy Hns].
  assert (index x <= index y) by (apply Hall; now apply in_map).
  assert (index x <> index y) by (intros Heq; apply Hns; now left).
  lia.
Qed.

(** The survivor at a timestamp is the first row that carries it. *)
Lemma dedup_from_first_at seen df ts :
  first_at ts (dedup_from seen df)
  = if existsb (Z.eqb ts) seen then None else first_at ts df.
Proof.
  revert seen. induction df as [|x rest IH]; intros seen.
  - simpl. now destruct (existsb (Z.eqb ts) seen).
  - rewrite dedup_from_cons. unfold first_at in *.
    destruct (existsb (Z.eqb (index x)) seen) eqn:Hx.
    + rewrite IH. simpl.
      destruct (Z.eqb_spec (index x) ts) as [Heq|Hne].
      * rewrite <- Heq, Z.eqb_refl. simpl. now rewrite Hx.
      * destruct (Z.eqb_spec ts (index x)); [congruence|]. reflexivity.
    + simpl. destruct (Z.eqb_spec (index x) ts) as [Heq|Hne].
      * now rewrite <- Heq, Hx.
      * rewrite IH. simpl.
        destruct (Z.eqb_spec ts (index x)); [congruence|]. reflexivity.
Qed.

Lemma first_at_Some_index ts df b :
  first_at ts df = Some b -> index b = ts /\ In b df.
Proof.
  unfold first_at. intros H. apply find_some in H.
  destruct H as [Hin Heq]. apply Z.eqb_eq in Heq. auto.
Qed.

Lemma first_at_In ts df :
  In ts (map index df) -> exists b, first_at ts df = Some b.
Proof.
  intros Hin. unfold first_at.
  destruct (find (fun b => index b =? ts) df) eqn:Hf; [eauto|].
  apply in_map_iff in Hin. destruct Hin as (b & <- & Hb).
  pose proof (find_none _ _ Hf _ Hb) as Hn. simpl in Hn.
  rewrite Z.eqb_refl in Hn. discriminate.
Qed.

(** C7.  Whatever sort the library uses, after lines 40-41 the frame
    handed to feature construction has strictly increasing timestamps
    and carries exactly the timestamps that were downloaded; every row
    kept is a downloaded row; and for every timestamp the row that is
    kept is the first row with that timestamp in the sorted
    concatenation, every later one being removed. *)
Theorem dedup_keeps_first_strictly_increasing
  (sort_index : DataFrame -> DataFrame) (frames : list DataFrame) :
  is_index_sort sort_index ->
  let sorted := sort_index (concat frames) in
  let data := concat_sort_dedup sort_index frames in
  StronglySorted Z.lt (map index data)
  /\ (forall ts, In ts (map index data) <-> In ts (map index (concat frames)))
  /\ (forall b, In b data -> In b (concat frames))
  /\ (forall ts, first_at ts data = first_at ts sorted)
  /\ (forall b, In b data -> first_at (index b) sorted = Some b).
Proof.
  intros Hsort sorted data.
  destruct (Hsort (concat frames)) as [Hperm Hasc]. fold sorted in Hperm, Hasc.
  assert (Hdata : data = dedup_from [] sorted) by reflexivity.
  assert (Hfirst : forall ts, first_at ts data = first_at ts sorted).
  { intros ts. rewrite Hdata, dedup_from_first_at. reflexivity. }
  assert (Hinc : StronglySorted Z.lt (map index data)).
  { rewrite Hdata. now apply dedup_from_increasing. }
  assert (Hrows : forall b, In b data -> In b (concat frames)).
  { intros b Hb. rewrite Hdata in Hb. apply dedup_from_In in Hb.
    destruct Hb as [Hb _].
    eapply Permutation_in; [symmetry; exact Hperm|exact Hb]. }
  split; [exact Hinc|]. split; [|split; [exact Hrows|split; [exact Hfirst|]]].
  - intros ts. split.
    + intros Hin. apply in_map_iff in Hin. destruct Hin as (b & <- & Hb).
      apply in_map. now apply Hrows.
    + intros Hin.
      assert (Hs : In ts (map index sorted)).
      { apply in_map_iff in Hin. destruct Hin as (b & <- & Hb).
        apply in_map. eapply Permutation_in; [exact Hperm|exact Hb]. }
      destruct (first_at_In _ _ Hs) as (b & Hb).
      rewrite <- Hfirst in Hb.
      apply first_at_Some_index in Hb. destruct Hb as [<- Hb].
      now apply in_map.
  - intros b Hb. rewrite <- Hfirst.
    assert (Hin : In (index b) (map index data)) by now apply in_map.
    destruct (first_at_In _ _ Hin) as (b' & Hb').
    rewrite Hb'. f_equal.
    apply first_at_Some_index in Hb'. destruct Hb' as [Hidx Hb'in].
    clear - Hinc Hb Hb'in Hidx.
    induction data as [|x rest IH]; [destruct Hb|].
    simpl in Hinc. inversion Hinc as [|? ? Hrest Hall]; subst.
    rewrite Forall_forall in Hall.
    destruct Hb as [->|Hb], Hb'in as [->|Hb'in]; auto.
    + assert (index b < index b') by (apply Hall; now apply in_map). lia.
    + assert (index b' < index b) by (apply Hall; now apply in_map). lia.
Qed.

(** On two downloads that arrive out of order, with a sort that
    reverses rows of equal timestamp: the row kept for hour 2 is the
    one the sort put first, here the one of the second download. *)
Lemma dedup_keeps_first_strictly_increasing_witness :
  is_index_sort reversing_sort
  /\ In (Samples.sample_bar 2 111 21)
        (concat_sort_dedup reversing_sort Samples.shuffled_frames)
  /\ first_at (2 * 3600000000)
              (reversing_sort (concat Samples.shuffled_frames))
     = Some (Samples.sample_bar 2 111 21).
Proof.
  split; [exact reversing_sort_ok|].
  assert (Hin : In (Samples.sample_bar 2 111 21)
                   (concat_sort_dedup reversing_sort
                      Samples.shuffled_frames))
    by (right; left; reflexivity).
  split; [exact Hin|].
  exact (proj2 (proj2 (proj2 (proj2
           (dedup_keeps_first_strictly_increasing reversing_sort
              Samples.shuffled_frames reversing_sort_ok))))
           (Samples.sample_bar 2 111 21) Hin).
Defined.

(** The same two downloads under the two sorts: the stable one keeps
    the first download's bar for hour 2, the other one the second's. *)
Example concat_sort_dedup_shuffled :
  concat_sort_dedup insertion_sort Samples.shuffled_frames
  = [Samples.sample_bar 1 100 10; Samples.sample_bar 2 110 20;
     Samples.sample_bar 3 99 15]
  /\ concat_sort_dedup reversing_sort Samples.shuffled_frames
     = [Samples.sample_bar 1 100 10; Samples.sample_bar 2 111 21;
        Samples.sample_bar 3 99 15].
Proof. split; vm_compute; reflexivity. Qed.

End FrameFacts.

(* ------------------------------------------------------------------ *)
(** ** Feature construction *)

Section FeaturesFacts.
Import F64 Frame Features.

#[local] Arguments sub : simpl never.
#[local] Arguments div : simpl never.
#[local] Arguments one : simpl never.

Lemma div_nan_r x : div x nan = nan.
Proof. now destruct x. Qed.

Lemma sub_nan_l y : sub nan y = nan.
Proof. reflexivity. Qed.

Lemma is_finite_not_nan x : is_finite x = true -> is_nan x = false.
Proof. now destruct x. Qed.

Lemma replace_inf_finite x : is_finite x = true -> replace_inf x = x.
Proof. now destruct x. Qed.

Lemma replace_inf_notna x :
  is_nan (replace_inf x) = false -> is_finite x = true /\ replace_inf x = x.
Proof. destruct x as [| | |]; simpl; auto; discriminate. Qed.

(** The shifted column only matters up to the length of the column. *)
Lemma zip_with_removelast {A B} (f : float -> A -> B) xs : forall p ys,
  length xs = length ys ->
  zip_with f xs (p :: removelast ys) = zip_with f xs (p :: ys).
Proof.
  induction xs as [|x xs IH]; intros p ys Hlen; [reflexivity|].
  destruct ys as [|y ys]; [discriminate|].
  simpl in Hlen. injection Hlen as Hlen.
  destruct ys as [|y' ys'].
  - destruct xs; [reflexivity|discriminate].
  - change (removelast (y :: y' :: ys')) with (y :: removelast (y' :: ys')).
    cbn [zip_with]. f_equal.
    destruct xs as [|x' xs']; [reflexivity|].
    now apply IH.
Qed.

Lemma pct_change_unfold m xs :
  pct_change m xs
  = zip_with (fun x prev => sub (div x prev) one) (fill m xs) (nan :: fill m xs).
Proof.
  unfold pct_change, shift. destruct (fill m xs) as [|d ds]; [reflexivity|].
  cbv zeta. now apply (zip_with_removelast _ (d :: ds) nan (d :: ds)).
Qed.

Lemma zip_with_length {A B C} (f : A -> B -> C) xs : forall ys,
  length (zip_with f xs ys) = Nat.min (length xs) (length ys).
Proof.
  induction xs as [|x xs IH]; intros [|y ys]; simpl; auto.
Qed.

Lemma combine_zip_with {A B} (xs : list A) (ys : list B) :
  combine xs ys = zip_with pair xs ys.
Proof.
  revert ys. induction xs as [|x xs IH]; intros [|y ys]; simpl; congruence.
Qed.

Lemma zip_with_nth_error {A B C} (f : A -> B -> C) xs : forall ys i,
  nth_error (zip_with f xs ys) i
  = match nth_error xs i, nth_error ys i with
    | Some x, Some y => Some (f x y)
    | _, _ => None
    end.
Proof.
  induction xs as [|x xs IH]; intros ys i.
  - destruct i; reflexivity.
  - destruct ys as [|y ys]; destruct i as [|i]; simpl; auto.
    + now destruct (nth_error xs i).
Qed.

Lemma ffill_from_length last xs : length (ffill_from last xs) = length xs.
Proof.
  revert last. induction xs as [|x xs IH]; intros last; simpl; auto.
Qed.

Lemma fill_length m xs : length (fill m xs) = length xs.
Proof. destruct m; simpl; [apply ffill_from_length|reflexivity]. Qed.

Lemma pct_change_length m xs : length (pct_change m xs) = length xs.
Proof.
  rewrite pct_change_unfold, zip_with_length. simpl.
  rewrite fill_length. lia.
Qed.

(** Forward fill leaves a column without missing values alone. *)
Lemma ffill_from_notna last xs :
  Forall (fun x => is_nan x = false) xs -> ffill_from last xs = xs.
Proof.
  intros H. revert last.
  induction H as [|x xs Hx _ IH]; intros last; simpl; [reflexivity|].
  rewrite Hx. now rewrite IH.
Qed.

Lemma pct_change_nth m xs t prev cur :
  m = no_fill \/ Forall (fun x => is_nan x = false) xs ->
  nth_error xs t = Some prev ->
  nth_error xs (S t) = Some cur ->
  nth_error (pct_change m xs) (S t) = Some (sub (div cur prev) one).
Proof.
  intros Hfill Hprev Hcur.
  assert (Hid : fill m xs = xs).
  { destruct Hfill as [->|Hnn]; [reflexivity|].
    destruct m; [now apply ffill_from_notna|reflexivity]. }
  rewrite pct_change_unfold, Hid, zip_with_nth_error, Hcur.
  change (nth_error (nan :: xs) (S t)) with (nth_error xs t).
  now rewrite Hprev.
Qed.

(** The first value of a percentage change is always missing. *)
Lemma pct_change_head m x xs :
  exists rest, pct_change m (x :: xs) = nan :: rest.
Proof.
  rewrite pct_change_unfold.
  assert (exists d ds, fill m (x :: xs) = d :: ds) as (d & ds & ->)
    by (destruct m; simpl; eauto).
  simpl. rewrite div_nan_r, sub_nan_l. eauto.
Qed.

Lemma add_features_length m data :
  length (add_features m data) = length data.
Proof.
  unfold add_features. rewrite zip_with_length.
  rewrite !length_combine, !pct_change_length, !length_map. lia.
Qed.

Lemma zip_with_src (data : DataFrame) : forall (cols : list (float * (float * float))),
  length data = length cols ->
  map src (zip_with (fun b f => FRow b (fst f) (fst (snd f)) (snd (snd f)))
                    data cols) = data.
Proof.
  induction data as [|b data IH]; intros [|c cols] Hlen;
    try discriminate; [reflexivity|].
  simpl. f_equal. apply IH. simpl in Hlen. lia.
Qed.

Lemma map_src_add_features m data : map src (add_features m data) = data.
Proof.
  unfold add_features. apply zip_with_src.
  rewrite !length_combine, !pct_change_length, !length_map. lia.
Qed.

Lemma add_features_nth m data t prev cur :
  m = no_fill
  \/ Forall (fun b => is_nan (Close b) = false /\ is_nan (Volume b) = false)
            data ->
  nth_error data t = Some prev ->
  nth_error data (S t) = Some cur ->
  nth_error (add_features m data) (S t)
  = Some (FRow cur (return_formula prev cur) (range_formula cur)
               (vol_change_formula prev cur)).
Proof.
  intros Hfill Hprev Hcur. unfold add_features.
  rewrite zip_with_nth_error, Hcur, !combine_zip_with, !zip_with_nth_error.
  rewrite (pct_change_nth m (map Close data) t (Close prev) (Close cur)),
          (pct_change_nth m (map Volume data) t (Volume prev) (Volume cur)),
          (map_nth_error _ _ _ Hcur);
    try (now apply map_nth_error); try reflexivity;
    (destruct Hfill as [->|Hnn]; [now left|right]);
    rewrite Forall_map; eapply Forall_impl; try exact Hnn; simpl; tauto.
Qed.

(** A row whose three features are finite passes lines 56-57 with its
    features unchanged. *)
Lemma finite_row_kept r :
  is_finite (return_ r) = true -> is_finite (range r) = true ->
  is_finite (vol_change r) = true ->
  notna_features (replace_inf_row r) = true
  /\ replace_inf_row r
     = FRow (replace_inf_bar (src r)) (return_ r) (range r) (vol_change r).
Proof.
  intros H1 H2 H3. unfold notna_features, replace_inf_row. simpl.
  rewrite !replace_inf_finite by assumption.
  rewrite !is_finite_not_nan by assumption. auto.
Qed.

Lemma kept_row_finite r :
  notna_features (replace_inf_row r) = true ->
  is_finite (return_ (replace_inf_row r)) = true
  /\ is_finite (range (replace_inf_row r)) = true
  /\ is_finite (vol_change (replace_inf_row r)) = true.
Proof.
  unfold notna_features, replace_inf_row. simpl.
  rewrite !andb_true_iff, !negb_true_iff. intros [[H1 H2] H3].
  apply replace_inf_notna in H1, H2, H3.
  destruct H1 as [? ->], H2 as [? ->], H3 as [? ->]. auto.
Qed.

Lemma Subseq_refl {A} (l : list A) : Subseq l l.
Proof. induction l; [apply Subseq_nil|now apply Subseq_keep]. Qed.

Lemma Subseq_filter {A} (p : A -> bool) l : Subseq (filter p l) l.
Proof.
  induction l as [|x l IH]; simpl; [apply Subseq_nil|].
  destruct (p x); [now apply Subseq_keep|now apply Subseq_skip].
Qed.

Lemma Subseq_map {A B} (f : A -> B) xs ys :
  Subseq xs ys -> Subseq (map f xs) (map f ys).
Proof.
  induction 1; simpl;
    [apply Subseq_nil|now apply Subseq_skip|now apply Subseq_keep].
Qed.

Lemma Subseq_length {A} (xs ys : list A) :
  Subseq xs ys -> (length xs <= length ys)%nat.
Proof. induction 1; simpl; lia. Qed.

(** The row of the first bar never survives: its return is missing. *)
Lemma FeatureBuilder_tail m data :
  FeatureBuilder m data
  = dropna (map replace_inf_row (tl (add_features m data))).
Proof.
  unfold FeatureBuilder. destruct data as [|b rest]; [reflexivity|].
  unfold add_features.
  destruct (pct_change_head m (Close b) (map Close rest)) as (rs & Hr).
  cbn [map]. rewrite Hr.
  destruct (pct_change m (Volume b :: map Volume rest)); reflexivity.
Qed.

(** C3.  For every row [t+1] with predecessor [t] the three feature
    columns hold [close/close_prev - 1], [(high - low)/close] and
    [volume/volume_prev - 1], computed in binary64, on input columns
    without missing values (or when [pct_change] does not fill), and a
    row whose three values are finite enters the observation matrix
    with exactly these values.  On closes [100,110,99] and volumes
    [10,20,15] the first row is dropped and the two rows that remain
    have returns [110/100 - 1] and [99/110 - 1], which are 0.10 and
    -0.10 up to binary64 rounding (within 1e-15), and volume changes
    exactly 1.0 and -0.25. *)
Theorem feature_formulas :
  (forall m data t prev cur,
     m = no_fill
     \/ Forall (fun b => is_nan (Close b) = false
                         /\ is_nan (Volume b) = false) data ->
     nth_error data t = Some prev ->
     nth_error data (S t) = Some cur ->
     let r := FRow cur (return_formula prev cur) (range_formula cur)
                   (vol_change_formula prev cur) in
     nth_error (add_features m data) (S t) = Some r
     /\ (is_finite (return_ r) = true -> is_finite (range r) = true ->
         is_finite (vol_change r) = true ->
         In (features r) (ObservationMatrix (FeatureBuilder m data))))
  /\
  (forall m b0 b1 b2,
     map Close [b0; b1; b2] = map of_Z [100; 110; 99] ->
     map Volume [b0; b1; b2] = map of_Z [10; 20; 15] ->
     is_finite (range_formula b1) = true ->
     is_finite (range_formula b2) = true ->
     let out := FeatureBuilder m [b0; b1; b2] in
     let r1 := sub (div (of_Z 110) (of_Z 100)) one in
     let r2 := sub (div (of_Z 99) (of_Z 110)) one in
     map (fun r => index (src r)) out = [index b1; index b2]
     /\ map return_ out = [r1; r2]
     /\ map range out = [range_formula b1; range_formula b2]
     /\ map vol_change out = [of_Z 1; of_decimal (-25) 2]
     /\ close_to r1 (1 # 10) eps
     /\ close_to r2 (-1 # 10) eps).
Proof.
  split.
  - intros m data t prev cur Hfill Hprev Hcur r.
    pose proof (add_features_nth m data t prev cur Hfill Hprev Hcur) as Hnth.
    split; [exact Hnth|]. intros H1 H2 H3.
    destruct (finite_row_kept r H1 H2 H3) as [Hk Hr].
    unfold ObservationMatrix, FeatureBuilder, dropna.
    apply in_map_iff. exists (replace_inf_row r). split.
    + rewrite Hr. reflexivity.
    + apply filter_In. split; [|exact Hk].
      apply in_map. eapply nth_error_In. exact Hnth.
  - intros m b0 b1 b2 Hc Hv Hg1 Hg2 out r1 r2.
    cbn [map] in Hc, Hv.
    assert (Hc0 : Close b0 = of_Z 100) by congruence.
    assert (Hc1 : Close b1 = of_Z 110) by congruence.
    assert (Hc2 : Close b2 = of_Z 99) by congruence.
    assert (Hv0 : Volume b0 = of_Z 10) by congruence.
    assert (Hv1 : Volume b1 = of_Z 20) by congruence.
    assert (Hv2 : Volume b2 = of_Z 15) by congruence.
    clear Hc Hv.
    assert (Hret : pct_change m (map of_Z [100; 110; 99]) = [nan; r1; r2])
      by (destruct m; vm_compute; reflexivity).
    assert (Hvol : pct_change m (map of_Z [10; 20; 15])
                   = [nan; of_Z 1; of_decimal (-25) 2])
      by (destruct m; vm_compute; reflexivity).
    assert (Hout : out
      = [FRow (replace_inf_bar b1) r1 (range_formula b1) (of_Z 1);
         FRow (replace_inf_bar b2) r2 (range_formula b2)
              (of_decimal (-25) 2)]).
    { unfold out. rewrite FeatureBuilder_tail. unfold add_features.
      cbn [map].
      fold (range_formula b0) (range_formula b1) (range_formula b2).
      rewrite Hc0, Hc1, Hc2, Hv0, Hv1, Hv2.
      cbn [map] in Hret, Hvol. rewrite Hret, Hvol.
      cbn [combine zip_with tl map fst snd].
      destruct (finite_row_kept
                  (FRow b1 r1 (range_formula b1) (of_Z 1)))
        as [Hk1 He1]; [reflexivity|exact Hg1|reflexivity|].
      destruct (finite_row_kept
                  (FRow b2 r2 (range_formula b2) (of_decimal (-25) 2)))
        as [Hk2 He2]; [reflexivity|exact Hg2|reflexivity|].
      unfold dropna. cbn [filter]. rewrite Hk1, Hk2, He1, He2.
      reflexivity. }
    rewrite Hout. cbn [map src return_ range vol_change index replace_inf_bar].
    split; [reflexivity|]. split; [reflexivity|]. split; [reflexivity|].
    split; [reflexivity|].
    split; (split; [reflexivity|vm_compute; discriminate]).
Qed.

Lemma feature_formulas_witness :
  nth_error (add_features pad Samples.sample_bars) 1
  = Some (FRow Samples.sb1 (return_formula Samples.sb0 Samples.sb1)
               (range_formula Samples.sb1)
               (vol_change_formula Samples.sb0 Samples.sb1))
  /\ map return_ (FeatureBuilder pad Samples.sample_bars)
     = [sub (div (of_Z 110) (of_Z 100)) one;
        sub (div (of_Z 99) (of_Z 110)) one]
  /\ map vol_change (FeatureBuilder pad Samples.sample_bars)
     = [of_Z 1; of_decimal (-25) 2].
Proof.
  assert (Hnn : Forall (fun b => is_nan (Close b) = false
                                 /\ is_nan (Volume b) = false)
                       Samples.sample_bars)
    by (repeat constructor).
  assert (Hg1 : is_finite (range_formula Samples.sb1) = true)
    by (vm_compute; reflexivity).
  assert (Hg2 : is_finite (range_formula Samples.sb2) = true)
    by (vm_compute; reflexivity).
  pose proof (proj1 feature_formulas pad Samples.sample_bars 0%nat
                Samples.sb0 Samples.sb1 (or_intror Hnn) eq_refl eq_refl)
    as H1.
  pose proof (proj2 feature_formulas pad Samples.sb0 Samples.sb1
                Samples.sb2 eq_refl eq_refl Hg1 Hg2) as H2.
  cbv zeta in H1, H2.
  split; [exact (proj1 H1)|].
  split; [exact (proj1 (proj2 H2))|exact (proj1 (proj2 (proj2 (proj2 H2))))].
Defined.

(** What binary64 makes of the two returns of the sample, next to the
    literals 0.1 and -0.1. *)
Example sample_returns_bits :
  sub (div (of_Z 110) (of_Z 100)) one
    = S754_finite false 7205759403792800 (-56)
  /\ of_decimal 1 1 = S754_finite false 7205759403792794 (-56)
  /\ sub (div (of_Z 99) (of_Z 110)) one
     = S754_finite true 7205759403792792 (-56)
  /\ of_decimal (-1) 1 = S754_finite true 7205759403792794 (-56).
Proof. vm_compute. auto. Qed.

(** C4.  No row of the FeatureBuilder's output has a NaN or infinite
    return, range or volume change: all three are finite in every
    surviving row.  The first input bar never contributes a row: the
    output is built from the rows after the first, so its timestamps
    are a subsequence of the timestamps of the bars after the first
    and it is shorter than the input. *)
Theorem features_finite_first_dropped m (data : DataFrame) :
  Forall (fun r => is_finite (return_ r) = true
                   /\ is_finite (range r) = true
                   /\ is_finite (vol_change r) = true)
         (FeatureBuilder m data)
  /\ Forall (fun x => is_finite (fst (fst x)) = true
                      /\ is_finite (snd (fst x)) = true
                      /\ is_finite (snd x) = true)
            (ObservationMatrix (FeatureBuilder m data))
  /\ FeatureBuilder m data
     = dropna (map replace_inf_row (tl (add_features m data)))
  /\ Subseq (map (fun r => index (src r)) (FeatureBuilder m data))
            (map index (tl data))
  /\ (length (FeatureBuilder m data) <= Nat.pred (length data))%nat.
Proof.
  assert (Hfin : Forall (fun r => is_finite (return_ r) = true
                   /\ is_finite (range r) = true
                   /\ is_finite (vol_change r) = true)
         (FeatureBuilder m data)).
  { apply Forall_forall. intros r Hin.
    unfold FeatureBuilder, dropna in Hin. apply filter_In in Hin.
    destruct Hin as [Hin Hk]. apply in_map_iff in Hin.
    destruct Hin as (r0 & <- & _). now apply kept_row_finite. }
  assert (Hsub : Subseq (map (fun r => index (src r)) (FeatureBuilder m data))
            (map index (tl data))).
  { rewrite FeatureBuilder_tail.
    replace (map index (tl data))
      with (map (fun r => index (src r))
                (map replace_inf_row (tl (add_features m data)))).
    - apply Subseq_map, Subseq_filter.
    - rewrite map_map. cbn [replace_inf_row src replace_inf_bar index].
      rewrite <- (map_src_add_features m data) at 2.
      destruct (add_features m data); [reflexivity|].
      cbn [tl map]. now rewrite map_map. }
  split; [exact Hfin|]. split; [|split; [apply FeatureBuilder_tail|]].
  - unfold ObservationMatrix. rewrite Forall_map.
    eapply Forall_impl; [|exact Hfin]. intros r. exact (fun H => H).
  - split; [exact Hsub|].
    apply Subseq_length in Hsub. rewrite !length_map in Hsub.
    destruct data; simpl in *; lia.
Qed.

(** A zero volume makes the next volume change infinite; the row is
    dropped along with the first one. *)
Example zero_volume_row_dropped :
  map (fun r => index (src r))
      (FeatureBuilder pad Samples.zero_volume_bars)
  = [1 * 3600000000; 3 * 3600000000].
Proof. vm_compute. reflexivity. Qed.

End FeaturesFacts.

(* ------------------------------------------------------------------ *)
(** ** Comparing binary64 numbers *)

Section FloatOrder.
Import F64.

Lemma compare_antisym x y :
  SFcompare y x = option_map CompOpp (SFcompare x y).
Proof.
  destruct x as [sx|sx| |sx mx ex], y as [sy|sy| |sy my ey];
    try destruct sx; try destruct sy; try reflexivity; simpl;
    rewrite (Z.compare_antisym ex ey);
    destruct (ex ?= ey); simpl; try reflexivity;
    change (Pos.compare_cont Eq my mx) with (Pos.compare my mx);
    change (Pos.compare_cont Eq mx my) with (Pos.compare mx my);
    rewrite (Pos.compare_antisym mx my); try reflexivity;
    now rewrite CompOpp_involutive.
Qed.

(** Of two numbers one is at most the other. *)
Lemma leb_total x y :
  is_nan x = false -> is_nan y = false ->
  leb x y = false -> leb y x = true.
Proof.
  intros Hx Hy. unfold leb, SFleb. rewrite (compare_antisym x y).
  destruct (SFcompare x y) as [[| |]|] eqn:Hc; simpl; try congruence.
  destruct x, y; simpl in *; congruence.
Qed.

Ltac cmp_cases :=
  repeat match goal with
  | |- context [Z.compare ?a ?b] => destruct (Z.compare_spec a b)
  | H : context [Z.compare ?a ?b] |- _ => destruct (Z.compare_spec a b)
  | |- context [Pos.compare_cont Eq ?a ?b] =>
      change (Pos.compare_cont Eq a b) with (Pos.compare a b);
      destruct (Pos.compare_spec a b)
  | H : context [Pos.compare_cont Eq ?a ?b] |- _ =>
      change (Pos.compare_cont Eq a b) with (Pos.compare a b) in H;
      destruct (Pos.compare_spec a b)
  end.

Lemma leb_trans x y z :
  leb x y = true -> leb y z = true -> leb x z = true.
Proof.
  unfold leb, SFleb.
  destruct x as [sx|sx| |sx mx ex], y as [sy|sy| |sy my ey],
           z as [sz|sz| |sz mz ez];
    try destruct sx; try destruct sy; try destruct sz;
    simpl; try congruence;
    cmp_cases; simpl; try congruence; try lia.
Qed.

Lemma leb_not_nan x y : leb x y = true -> is_nan x = false /\ is_nan y = false.
Proof. destruct x, y; simpl; auto; discriminate. Qed.

End FloatOrder.

(* ------------------------------------------------------------------ *)
(** ** The summary table *)

Section SummaryFacts.
Import F64 Frame Features Summary.

Lemma insert_key_In k ks x :
  In x (insert_key k ks) <-> x = k \/ In x ks.
Proof.
  induction ks as [|y ks IH]; simpl; [intuition|].
  destruct (Nat.ltb_spec k y); simpl; [intuition|].
  destruct (Nat.eqb_spec k y); simpl; [subst; intuition|].
  rewrite IH. intuition.
Qed.

Lemma insert_key_sorted k ks :
  StronglySorted lt ks -> StronglySorted lt (insert_key k ks).
Proof.
  induction ks as [|y ks IH]; simpl; intros Hs; [repeat constructor|].
  inversion Hs as [|? ? Hks Hall]; subst.
  destruct (Nat.ltb_spec k y).
  - constructor; [assumption|]. constructor; [assumption|].
    eapply Forall_impl; [|exact Hall]. simpl. intros; lia.
  - destruct (Nat.eqb_spec k y); [assumption|].
    constructor; [auto|].
    rewrite Forall_forall in *. intros x Hx.
    apply insert_key_In in Hx. destruct Hx as [->|Hx]; [lia|auto].
Qed.

Lemma group_keys_In rows k :
  In k (group_keys rows) <-> In k (map state rows).
Proof.
  unfold group_keys. induction (map state rows) as [|s l IH]; simpl;
    [tauto|].
  rewrite insert_key_In, IH. intuition.
Qed.

Lemma group_keys_sorted rows : StronglySorted lt (group_keys rows).
Proof.
  unfold group_keys. induction (map state rows) as [|s l IH]; simpl;
    [constructor|now apply insert_key_sorted].
Qed.

Lemma sorted_lt_NoDup l : StronglySorted lt l -> NoDup l.
Proof.
  induction 1 as [|x l Hs IH Hall]; constructor; auto.
  intros Hin. rewrite Forall_forall in Hall.
  specialize (Hall _ Hin). lia.
Qed.

(** A strictly increasing list is determined by its members. *)
Lemma sorted_lt_ext l1 : forall l2,
  StronglySorted lt l1 -> StronglySorted lt l2 ->
  (forall x, In x l1 <-> In x l2) -> l1 = l2.
Proof.
  induction l1 as [|a l1 IH]; intros [|b l2] H1 H2 Hext.
  - reflexivity.
  - destruct (proj2 (Hext b)); now left.
  - destruct (proj1 (Hext a)); now left.
  - inversion H1 as [|? ? H1s H1all]; subst.
    inversion H2 as [|? ? H2s H2all]; subst.
    rewrite Forall_forall in H1all, H2all.
    assert (a = b).
    { destruct (proj1 (Hext a) (or_introl eq_refl)) as [Hab|Hin];
        [now symmetry|].
      destruct (proj2 (Hext b) (or_introl eq_refl)) as [Hba|Hin'];
        [assumption|].
      specialize (H2all _ Hin). specialize (H1all _ Hin'). lia. }
    subst b. f_equal. apply IH; try assumption.
    intros x. split; intros Hx.
    + destruct (proj1 (Hext x) (or_intror Hx)) as [<-|]; [|assumption].
      specialize (H1all _ Hx). lia.
    + destruct (proj2 (Hext x) (or_intror Hx)) as [<-|]; [|assumption].
      specialize (H2all _ Hx). lia.
Qed.

Lemma insert_desc_perm e es : Permutation (e :: es) (insert_desc e es).
Proof.
  induction es as [|x es IH]; simpl; [reflexivity|].
  destruct (leb (Mean_Return x) (Mean_Return e)); [reflexivity|].
  rewrite perm_swap. now constructor.
Qed.

Lemma filter_split_perm {A} (p : A -> bool) l :
  Permutation l (filter (fun x => negb (p x)) l ++ filter p l).
Proof.
  induction l as [|x l IH]; simpl; [constructor|].
  destruct (p x); simpl.
  - now apply Permutation_cons_app.
  - now constructor.
Qed.

Lemma sort_values_desc_perm es : Permutation es (sort_values_desc es).
Proof.
  unfold sort_values_desc.
  rewrite (filter_split_perm (fun e => is_nan (Mean_Return e)) es) at 1.
  apply Permutation_app_tail.
  induction (filter (fun e => negb (is_nan (Mean_Return e))) es)
    as [|x l IH]; simpl; [constructor|].
  rewrite <- insert_desc_perm. now constructor.
Qed.

Lemma insert_desc_sorted e es :
  is_nan (Mean_Return e) = false ->
  Forall (fun x => is_nan (Mean_Return x) = false) es ->
  StronglySorted geb_mean es ->
  StronglySorted geb_mean (insert_desc e es).
Proof.
  intros He. induction es as [|x es IH]; simpl; intros Hnn Hs;
    [repeat constructor|].
  inversion Hs as [|? ? Hes Hall]; subst.
  inversion Hnn as [|? ? Hx Hnn']; subst.
  destruct (leb (Mean_Return x) (Mean_Return e)) eqn:Hle.
  - constructor; [assumption|]. constructor; [exact Hle|].
    eapply Forall_impl; [|exact Hall]. unfold geb_mean. intros y Hy.
    eapply leb_trans; eassumption.
  - constructor; [auto|].
    rewrite Forall_forall in *. intros y Hy.
    apply (Permutation_in _ (Permutation_sym (insert_desc_perm e es))) in Hy.
    destruct Hy as [<-|Hy]; [|auto].
    unfold geb_mean. now apply leb_total.
Qed.

Lemma StronglySorted_app {A} (R : A -> A -> Prop) l1 l2 :
  StronglySorted R l1 -> StronglySorted R l2 ->
  (forall a b, In a l1 -> In b l2 -> R a b) ->
  StronglySorted R (l1 ++ l2).
Proof.
  induction 1 as [|x l1 Hs IH Hall]; intros H2 Hcross; simpl;
    [assumption|].
  constructor.
  - apply IH; [assumption|]. intros a b Ha Hb. apply Hcross; [now right|auto].
  - apply Forall_app. split; [assumption|].
    apply Forall_forall. intros b Hb. apply Hcross; [now left|assumption].
Qed.

Lemma sort_values_desc_sorted es :
  StronglySorted (fun a b => desc_na_last (Mean_Return a) (Mean_Return b))
                 (sort_values_desc es).
Proof.
  unfold sort_values_desc.
  set (nums := filter (fun e => negb (is_nan (Mean_Return e))) es).
  set (nans := filter (fun e => is_nan (Mean_Return e)) es).
  assert (Hnums : Forall (fun x => is_nan (Mean_Return x) = false) nums).
  { apply Forall_forall. intros x Hx. apply filter_In in Hx.
    now apply negb_true_iff. }
  assert (Hnans : Forall (fun x => is_nan (Mean_Return x) = true) nans).
  { apply Forall_forall. intros x Hx. now apply filter_In in Hx. }
  assert (Hsorted : Forall (fun x => is_nan (Mean_Return x) = false)
                      (fold_right insert_desc [] nums)
                    /\ StronglySorted geb_mean (fold_right insert_desc [] nums)).
  { clearbody nums. clear nans Hnans.
    induction Hnums as [|x l Hx Hl IH]; simpl; [split; constructor|].
    destruct IH as [IH1 IH2]. split.
    - rewrite Forall_forall in *. intros y Hy.
      apply (Permutation_in _ (Permutation_sym (insert_desc_perm _ _))) in Hy.
      destruct Hy as [<-|Hy]; auto.
    - now apply insert_desc_sorted. }
  destruct Hsorted as [Hnn Hs].
  apply StronglySorted_app.
  - clear - Hnn Hs. induction Hs as [|x l Hs IH Hall]; constructor.
    + apply IH. now inversion Hnn.
    + inversion Hnn; subst. eapply Forall_impl; [|exact Hall].
      intros y Hy. right. split; assumption.
  - clearbody nans. clear - Hnans.
    induction Hnans as [|x l Hx Hl IH]; constructor; [assumption|].
    eapply Forall_impl; [|exact Hl]. intros y Hy. now left.
  - intros a b _ Hb. left. rewrite Forall_forall in Hnans. auto.
Qed.

Lemma sort_values_desc_ok : is_desc_sort sort_values_desc.
Proof.
  intros es. split; [apply sort_values_desc_perm|].
  apply sort_values_desc_sorted.
Qed.

(** Two orderings of the same entries that are both sorted agree when
    no two different entries can stand either way round. *)
Lemma sorted_perm_unique {A} (R : A -> A -> Prop) (l : list A) :
  forall l', Permutation l l' ->
  StronglySorted R l -> StronglySorted R l' ->
  (forall a b, In a l -> In b l -> R a b -> R b a -> a = b) ->
  l = l'.
Proof.
  induction l as [|a l IH]; intros l' Hperm Hs Hs' Hanti.
  - apply Permutation_nil in Hperm. now subst.
  - destruct l' as [|b l'];
      [apply Permutation_sym, Permutation_nil in Hperm; discriminate|].
    inversion Hs as [|? ? Hl Hall]; subst.
    inversion Hs' as [|? ? Hl' Hall']; subst.
    rewrite Forall_forall in Hall, Hall'.
    assert (Heq : a = b).
    { assert (Ha : In a (b :: l'))
        by (eapply Permutation_in; [exact Hperm|now left]).
      assert (Hb : In b (a :: l))
        by (eapply Permutation_in; [symmetry; exact Hperm|now left]).
      destruct Ha as [Ha|Ha]; [now symmetry|].
      destruct Hb as [Hb|Hb]; [assumption|].
      apply Hanti; [now left|now right|now apply Hall|now apply Hall']. }
    subst b. f_equal. apply IH; try assumption.
    + eapply Permutation_cons_inv; exact Hperm.
    + intros x y Hx Hy. apply Hanti; now right.
Qed.

Section Table.
Variables mean std : list float -> float.
Variable sort_values : list entry -> list entry.
Hypothesis sort_values_ok : is_desc_sort sort_values.

Lemma agg_labels rows : map label (agg mean std rows) = group_keys rows.
Proof.
  unfold agg. rewrite map_map. simpl. apply map_id.
Qed.

Lemma summary_perm rows :
  Permutation (agg mean std rows) (summary mean std sort_values rows).
Proof. apply sort_values_ok. Qed.

Lemma summary_labels_perm rows :
  Permutation (group_keys rows) (map label (summary mean std sort_values rows)).
Proof.
  rewrite <- agg_labels. apply Permutation_map, summary_perm.
Qed.

Lemma summary_entry rows e :
  In e (summary mean std sort_values rows) ->
  In (label e) (map state rows)
  /\ e = Entry (label e) (mean (group rows (label e)))
               (std (group rows (label e))) (count (group rows (label e))).
Proof.
  intros Hin.
  apply (Permutation_in _ (Permutation_sym (summary_perm rows))) in Hin.
  unfold agg in Hin. apply in_map_iff in Hin.
  destruct Hin as (k & <- & Hk). simpl. split; [|reflexivity].
  now apply group_keys_In.
Qed.

Lemma summary_has_label rows k :
  (exists e, In e (summary mean std sort_values rows) /\ label e = k)
  <-> In k (map state rows).
Proof.
  split.
  - intros (e & He & <-). now apply summary_entry.
  - intros Hk. apply group_keys_In in Hk.
    apply (Permutation_in _ (summary_labels_perm rows)) in Hk.
    apply in_map_iff in Hk. destruct Hk as (e & Hl & He). eauto.
Qed.

Lemma count_notna xs :
  Forall (fun x => is_nan x = false) xs -> count xs = List.length xs.
Proof.
  unfold count. induction 1 as [|x xs Hx _ IH]; simpl; [reflexivity|].
  rewrite Hx. simpl. now rewrite IH.
Qed.

(** C5.  The summary has exactly one entry per label of the decoded
    path; the entry of a label holds the mean, the standard deviation
    and the count of the returns of the rows that carry it (the count
    being the number of those rows when no return is missing); the
    entries stand in descending order of mean, entries with a missing
    mean last.  With means -0.01, 0.02 and 0.00 for the labels 0, 1
    and 2 the order is 1, 2, 0. *)
Theorem summary_by_label_sorted_desc (rows : list srow) :
  let table := summary mean std sort_values rows in
  (forall k, In k (map label table) <-> In k (map state rows))
  /\ NoDup (map label table)
  /\ (forall e, In e table ->
        Mean_Return e = mean (group rows (label e))
        /\ Volatility e = std (group rows (label e))
        /\ Count e = count (group rows (label e)))
  /\ (Forall (fun r => is_nan (return_ (feat r)) = false) rows ->
      forall e, In e table ->
        Count e
        = List.length (filter (fun r => (state r =? label e)%nat) rows))
  /\ StronglySorted
       (fun a b => desc_na_last (Mean_Return a) (Mean_Return b)) table
  /\ (Forall (fun e => is_nan (Mean_Return e) = false) table ->
      StronglySorted geb_mean table)
  /\ ((forall k, In k (map state rows) <-> (k < 3)%nat) ->
      mean (group rows 0) = of_decimal (-1) 2 ->
      mean (group rows 1) = of_decimal 2 2 ->
      mean (group rows 2) = of_decimal 0 2 ->
      map label table = [1; 2; 0]%nat).
Proof.
  intros table.
  assert (Hentry : forall e, In e table ->
        Mean_Return e = mean (group rows (label e))
        /\ Volatility e = std (group rows (label e))
        /\ Count e = count (group rows (label e))).
  { intros e He. destruct (summary_entry rows e He) as [_ Heq].
    rewrite Heq at 1 3 5. simpl. auto. }
  assert (Hdesc : StronglySorted
            (fun a b => desc_na_last (Mean_Return a) (Mean_Return b)) table)
    by apply sort_values_ok.
  split; [|split; [|split; [exact Hentry|split; [|split; [exact Hdesc|split]]]]].
  - intros k. rewrite <- (summary_has_label rows k). unfold table.
    rewrite in_map_iff. split; intros (e & H1 & H2); eauto.
  - eapply Permutation_NoDup; [apply summary_labels_perm|].
    apply sorted_lt_NoDup, group_keys_sorted.
  - intros Hnn e He. destruct (Hentry e He) as (_ & _ & ->).
    unfold group. rewrite count_notna, length_map; [reflexivity|].
    rewrite Forall_map. rewrite Forall_forall in *.
    intros r Hr. apply filter_In in Hr. now apply Hnn.
  - intros Hnn. clear - Hdesc Hnn.
    induction Hdesc as [|x l Hs IH Hall]; constructor.
    + apply IH. now inversion Hnn.
    + inversion Hnn as [|? ? Hx Hl]; subst.
      rewrite Forall_forall in *. intros y Hy.
      destruct (Hall y Hy) as [Hnan|[_ Hle]]; [|exact Hle].
      rewrite (Hl y Hy) in Hnan. discriminate.
  - intros Hlabels H0 H1 H2.
    assert (Hkeys : group_keys rows = [0; 1; 2]%nat).
    { apply sorted_lt_ext.
      - apply group_keys_sorted.
      - repeat constructor.
      - intros k. rewrite group_keys_In, Hlabels. simpl. lia. }
    pose proof (summary_perm rows) as Hperm. fold table in Hperm.
    unfold agg in Hperm. rewrite Hkeys in Hperm. cbn [map] in Hperm.
    rewrite H0, H1, H2 in Hperm.
    revert Hperm.
    generalize (std (group rows 0)) (std (group rows 1))
               (std (group rows 2)) (count (group rows 0))
               (count (group rows 1)) (count (group rows 2)).
    intros s0 s1 s2 c0 c1 c2 Hperm.
    set (E0 := Entry 0 (of_decimal (-1) 2) s0 c0) in *.
    set (E1 := Entry 1 (of_decimal 2 2) s1 c1) in *.
    set (E2 := Entry 2 (of_decimal 0 2) s2 c2) in *.
    assert (Heq : table = [E1; E2; E0]).
    { apply (sorted_perm_unique
               (fun a b => desc_na_last (Mean_Return a) (Mean_Return b))).
      - etransitivity; [symmetry; exact Hperm|].
        apply (Permutation_cons_append [E1; E2] E0).
      - exact Hdesc.
      - repeat constructor; right; split; reflexivity.
      - intros a b Ha Hb.
        apply (Permutation_in _ (Permutation_sym Hperm)) in Ha, Hb.
        destruct Ha as [<-|[<-|[<-|[]]]], Hb as [<-|[<-|[<-|[]]]];
          intros [Hx|[_ Hx]] [Hy|[_ Hy]]; try reflexivity;
          vm_compute in Hx, Hy; discriminate. }
    rewrite Heq. reflexivity.
Qed.

(** C2, as the code has it.  The summary has an entry for a label
    exactly when the label occurs in the decoded path, and then only
    one: a state that no observation is assigned to has no entry. *)
Theorem summary_lists_decoded_labels_only (rows : list srow) (k : nat) :
  ((exists e, In e (summary mean std sort_values rows) /\ label e = k)
   <-> In k (map state rows))
  /\ (forall e1 e2, In e1 (summary mean std sort_values rows) ->
        In e2 (summary mean std sort_values rows) ->
        label e1 = label e2 -> e1 = e2)
  /\ (forall e, In e (summary mean std sort_values rows) ->
        filter (fun r => (state r =? label e)%nat) rows <> []).
Proof.
  split; [apply summary_has_label|]. split.
  - intros e1 e2 H1 H2 Hl.
    destruct (summary_entry rows e1 H1) as [_ E1].
    destruct (summary_entry rows e2 H2) as [_ E2].
    rewrite E1, E2, Hl. reflexivity.
  - intros e He. destruct (summary_entry rows e He) as [Hin _].
    apply in_map_iff in Hin. destruct Hin as (r & Hr & Hin).
    intros Hnil.
    assert (Hf : In r (filter (fun r => (state r =? label e)%nat) rows)).
    { apply filter_In. split; [assumption|]. now apply Nat.eqb_eq. }
    rewrite Hnil in Hf. destruct Hf.
Qed.

End Table.

Lemma summary_by_label_sorted_desc_witness :
  map label (summary mean_f64 std_f64 sort_values_desc three_regimes) = [1; 2; 0]%nat.
Proof.
  apply (summary_by_label_sorted_desc mean_f64 std_f64 sort_values_desc
           sort_values_desc_ok three_regimes).
  - intros k. simpl. lia.
  - vm_compute. reflexivity.
  - vm_compute. reflexivity.
  - vm_compute. reflexivity.
Defined.

Lemma summary_lists_decoded_labels_only_witness :
  (exists e, In e (summary mean_f64 std_f64 sort_values_desc three_regimes) /\ label e = 2%nat)
  <-> In 2%nat (map state three_regimes).
Proof.
  apply (summary_lists_decoded_labels_only mean_f64 std_f64
           sort_values_desc sort_values_desc_ok three_regimes).
Defined.

End SummaryFacts.

(* ------------------------------------------------------------------ *)
(** ** The script as a whole *)

Section PipelineFacts.
Import F64 Chunking Frame Features Summary Pipeline.

Section AnyCollaborators.
Context {Params : Type}.
Variable yf_download : datetime -> datetime -> DataFrame.
Variable hmm_fit : HMMConfig -> list observation -> exn + Params.
Variable hmm_predict : Params -> list observation -> exn + list nat.
Variable sort_index : DataFrame -> DataFrame.
Variable sort_values : list entry -> list entry.
Variables mean std : list float -> float.
Variable fill_default : fill_method.

#[local] Abbreviation train_and_decode :=
  (train_and_decode hmm_fit hmm_predict sort_values mean std fill_default).
#[local] Abbreviation load_data := (load_data yf_download sort_index).
#[local] Abbreviation run :=
  (run yf_download hmm_fit hmm_predict sort_index sort_values mean std
       fill_default).



(** What [train_and_decode] does, case by case. *)
Lemma train_and_decode_cases data tr :
  let rows := FeatureBuilder fill_default data in
  let X := ObservationMatrix rows in
  train_and_decode data tr
  = match hmm_fit model_config X with
    | inl e => (tr ++ [Fit model_config X], inl e)
    | inr params =>
        let tr' := (tr ++ [Fit model_config X]) ++ [Predict X] in
        match hmm_predict params X with
        | inl e => (tr', inl e)
        | inr states =>
            if (List.length states =? List.length rows)%nat
            then (tr', inr (zip_with SRow rows states,
                            summary mean std sort_values
                                    (zip_with SRow rows states)))
            else (tr', inl "ValueError"%string)
        end
    end.
Proof.
  intros rows X. unfold Pipeline.train_and_decode, bind, emit, lift, ret,
    raise. fold rows. fold X.
  destruct (hmm_fit model_config X) as [e|params]; [reflexivity|].
  destruct (hmm_predict params X) as [e|states]; [reflexivity|].
  destruct (List.length states =? List.length rows)%nat; reflexivity.
Qed.

(** C1, as the code has it.  There is no row threshold: whatever the
    number of usable rows, the observation matrix is handed to the
    trainer's [fit] with the configured model, as the first call of
    this stage.  If [fit] raises, the run stops with that exception.
    If it returns, [predict] is called on the same matrix; if
    [predict] raises, the run stops with that exception; if it returns
    a label list of another length than the matrix, the run stops with
    the [ValueError] of the column assignment; and if it returns one
    label per row, the run ends with the report: the decoded rows and
    their summary. *)
Theorem fit_called_whatever_row_count (data : DataFrame) (tr : list event) :
  let rows := FeatureBuilder fill_default data in
  let X := ObservationMatrix rows in
  let r := train_and_decode data tr in
  (exists tr', fst r = tr ++ Fit model_config X :: tr')
  /\ (forall e, hmm_fit model_config X = inl e ->
        r = (tr ++ [Fit model_config X], inl e))
  /\ (forall params e,
        hmm_fit model_config X = inr params ->
        hmm_predict params X = inl e ->
        r = (tr ++ [Fit model_config X; Predict X], inl e))
  /\ (forall params states,
        hmm_fit model_config X = inr params ->
        hmm_predict params X = inr states ->
        List.length states <> List.length rows ->
        r = (tr ++ [Fit model_config X; Predict X],
             inl "ValueError"%string))
  /\ (forall params states,
        hmm_fit model_config X = inr params ->
        hmm_predict params X = inr states ->
        List.length states = List.length rows ->
        r = (tr ++ [Fit model_config X; Predict X],
             inr (zip_with SRow rows states,
                  summary mean std sort_values (zip_with SRow rows states))))
  /\ (forall now tr0, load_data now [] = (tr0, inr data) ->
        tr = tr0 -> run now = r).
Proof.
  intros rows X r.
  assert (Hr : r = train_and_decode data tr) by reflexivity.
  rewrite train_and_decode_cases in Hr. fold rows in Hr. fold X in Hr.
  cbv zeta in Hr. rewrite <- !app_assoc in Hr. simpl app in Hr.
  split; [|split; [|split; [|split; [|split]]]].
  - rewrite Hr. destruct (hmm_fit model_config X) as [e|params];
      [exists []; reflexivity|].
    exists [Predict X].
    destruct (hmm_predict params X) as [e|states];
      [|destruct (_ =? _)%nat]; reflexivity.
  - intros e He. now rewrite Hr, He.
  - intros params e Hf Hp. now rewrite Hr, Hf, Hp.
  - intros params states Hf Hp Hlen. rewrite Hr, Hf, Hp.
    apply Nat.eqb_neq in Hlen. now rewrite Hlen.
  - intros params states Hf Hp Hlen. rewrite Hr, Hf, Hp.
    apply Nat.eqb_eq in Hlen. now rewrite Hlen.
  - intros now tr0 Hload ->. unfold Pipeline.run, main, bind.
    now rewrite Hload.
Qed.


End AnyCollaborators.

(** The sample run: eight usable rows, fewer than the threshold the
    specification names, and the trainer is called all the same. *)
Example sample_run_trace :
  let X := ObservationMatrix
             (FeatureBuilder pad (concat_sort_dedup insertion_sort [Samples.hourly_bars])) in
  List.length X = 8%nat
  /\ fst sample_run
     = [Download (sample_now - days 729) (sample_now - days 484);
        Download (sample_now - days 484) (sample_now - days 239);
        Download (sample_now - days 239) sample_now;
        Fit model_config X; Predict X]
  /\ snd sample_run
     = inr (sample_decoded, summary mean_f64 std_f64 sort_values_desc sample_decoded)
  /\ map state sample_decoded = [0; 2; 0; 2; 0; 2; 0; 2]%nat.
Proof.
  cbv zeta. split; [|split; [|split]]; vm_compute; reflexivity.
Qed.

Lemma fit_called_whatever_row_count_witness :
  let rows := FeatureBuilder pad Samples.hourly_bars in
  let X := ObservationMatrix rows in
  Pipeline.train_and_decode sample_fit sample_predict sort_values_desc
    mean_f64 std_f64 pad Samples.hourly_bars []
  = ([] ++ [Fit model_config X; Predict X],
     inr (zip_with SRow rows (alternate 0 X),
          summary mean_f64 std_f64 sort_values_desc
                  (zip_with SRow rows (alternate 0 X)))).
Proof.
  intros rows X.
  apply (proj1 (proj2 (proj2 (proj2 (proj2
           (fit_called_whatever_row_count sample_download sample_fit
              sample_predict insertion_sort sort_values_desc mean_f64
              std_f64 pad Samples.hourly_bars [])))))
           tt (alternate 0 X)).
  - reflexivity.
  - reflexivity.
  - vm_compute. reflexivity.
Defined.

(** The sample download: three chunks, of which the first returns the
    nine hourly bars. *)
Lemma sample_load :
  load_data sample_download insertion_sort sample_now []
  = ([Download (sample_now - days 729) (sample_now - days 484);
      Download (sample_now - days 484) (sample_now - days 239);
      Download (sample_now - days 239) sample_now],
     inr (concat_sort_dedup insertion_sort [Samples.hourly_bars])).
Proof. vm_compute. reflexivity. Qed.

Lemma sample_few_rows :
  (List.length (FeatureBuilder pad (concat_sort_dedup insertion_sort [Samples.hourly_bars]))
   < min_rows)%nat.
Proof. vm_compute. lia. Qed.

(** Whatever the trainer is, on the sample download the trace of the
    run contains the call of [fit] on the eight usable rows. *)
Lemma few_rows_fit_event {Params : Type}
  (fit : HMMConfig -> list observation -> exn + Params)
  (predict : Params -> list observation -> exn + list nat) :
  let X := ObservationMatrix
             (FeatureBuilder pad (concat_sort_dedup insertion_sort [Samples.hourly_bars])) in
  List.length X = 8%nat
  /\ In (Fit model_config X)
        (fst (Pipeline.run sample_download fit predict insertion_sort
                             sort_values_desc mean_f64 std_f64
                pad sample_now)).
Proof.
  intros X. split; [vm_compute; reflexivity|].
  unfold Pipeline.run, main, bind.
  rewrite sample_load, train_and_decode_cases. fold X.
  destruct (fit model_config X) as [e|params]; cbv zeta.
  - simpl. right. right. right. now left.
  - destruct (predict params X) as [e|states];
      [|destruct (_ =? _)%nat]; simpl; right; right; right; now left.
Qed.

(** C1 fails on the code.  The sample download leaves eight usable
    rows, fewer than the threshold, and the run does not end in
    [InsufficientDataError] without training: the trainer's [fit] is
    called on the eight rows. *)
Lemma few_rows_still_trained :
  ~ (forall (Params : Type)
            (fit : HMMConfig -> list observation -> exn + Params)
            (predict : Params -> list observation -> exn + list nat),
       let rows :=
         FeatureBuilder pad (concat_sort_dedup insertion_sort [Samples.hourly_bars]) in
       let r := Pipeline.run sample_download fit predict insertion_sort
                             sort_values_desc mean_f64 std_f64
                             pad sample_now in
       (List.length rows < min_rows)%nat ->
       snd r = inl "InsufficientDataError"%string
       /\ Forall (fun ev => is_fit ev = false) (fst r)).
Proof.
  intros H.
  destruct (H unit sample_fit sample_predict sample_few_rows) as [_ Hnofit].
  destruct (few_rows_fit_event sample_fit sample_predict) as [_ Hin].
  rewrite Forall_forall in Hnofit.
  pose proof (Hnofit _ Hin) as Hf.
  discriminate Hf.
Qed.

Lemma sample_summary_labels :
  map label (summary mean_f64 std_f64 sort_values_desc sample_decoded) = [0; 2]%nat.
Proof. vm_compute. reflexivity. Qed.

(** C2 fails on the code.  In the sample run the decoded path uses the
    labels 0 and 2 of the seven states only, and the summary has no
    entry for label 1. *)
Lemma summary_omits_unvisited_state :
  ~ (forall k, (k < n_components model_config)%nat ->
       exists e, In e (summary mean_f64 std_f64 sort_values_desc sample_decoded)
                 /\ label e = k).
Proof.
  intros H. destruct (H 1%nat) as (e & He & Hl); [simpl; lia|].
  apply (in_map label) in He. rewrite sample_summary_labels, Hl in He.
  simpl in He. intuition discriminate.
Qed.

End PipelineFacts.

(* ================================================================== *)
(** * Further properties of the script *)

(* ------------------------------------------------------------------ *)
(** ** The chunk list in detail *)

Section ChunkShapeFacts.
Import Chunking ChunkShape Pipeline.

Lemma dt_add_inr d delta r : dt_add d delta = inr r -> r = d + delta.
Proof.
  unfold dt_add. destruct (in_range (d + delta)); congruence.
Qed.

(** Whenever the loop returns a list, what it appended from [t0] is
    [chunks_from t0]. *)
Lemma loop_run_shape fuel : forall end_date t0 acc r,
  loop_run fuel end_date (LoopState t0 acc) = Some (inr r) ->
  exists bs, r = acc ++ bs /\ chunks_from t0 end_date bs.
Proof.
  induction fuel as [|fuel IH]; intros end_date t0 acc r;
    cbn [loop_run]; unfold loop_step; cbn [t boundaries];
    destruct (Z.ltb_spec t0 end_date) as [Hlt|Hge];
    try (intros Heq; injection Heq as <-; exists [];
         rewrite app_nil_r; split; [reflexivity|assumption]);
    destruct (dt_add t0 chunk_size) as [e|t'] eqn:Hadd;
    try discriminate.
  apply dt_add_inr in Hadd. subst t'. intros Hrun.
  apply IH in Hrun. destruct Hrun as (bs & -> & Hch).
  exists ((t0, Z.min (t0 + chunk_size) end_date) :: bs).
  rewrite <- app_assoc. split; [reflexivity|]. simpl. auto.
Qed.

Lemma chunk_boundaries_shape start_date end_date bs :
  chunk_boundaries start_date end_date = inr bs ->
  chunks_from start_date end_date bs.
Proof.
  unfold chunk_boundaries.
  destruct (loop_run_total (iterations start_date end_date)
              end_date start_date []) as (r & Hr);
    [apply iterations_enough|].
  rewrite Hr. intros ->. apply loop_run_shape in Hr.
  destruct Hr as (bs' & -> & Hch). exact Hch.
Qed.

(** In range the loop returns a list. *)
Lemma chunk_boundaries_in_range start_date end_date :
  chunks_in_range start_date end_date \/ end_date <= start_date ->
  exists bs, chunk_boundaries start_date end_date = inr bs.
Proof.
  intros [[H0 Hmax]|Hle]; unfold chunk_boundaries.
  - destruct (Z.le_gt_cases start_date end_date) as [Hle|Hgt].
    + destruct (loop_run_chain (iterations start_date end_date)
                  end_date start_date [])
        as (bs & Hrun & _); [lia|assumption|apply iterations_enough|].
      rewrite Hrun. eauto.
    + destruct (iterations start_date end_date); simpl; unfold loop_step;
        simpl; destruct (Z.ltb_spec start_date end_date); try lia; eauto.
  - destruct (iterations start_date end_date); simpl; unfold loop_step;
      simpl; destruct (Z.ltb_spec start_date end_date); try lia; eauto.
Qed.

Lemma chunk_count_done t0 end_date :
  end_date <= t0 -> Z.to_nat (chunk_count t0 end_date) = 0%nat.
Proof.
  intros Hle. pose proof chunk_size_pos as Hc. unfold chunk_count.
  assert ((end_date - t0 + chunk_size - 1) / chunk_size < 1)
    by (apply Z.div_lt_upper_bound; lia).
  lia.
Qed.

Lemma chunk_count_step t0 end_date :
  t0 < end_date ->
  Z.to_nat (chunk_count t0 end_date)
  = S (Z.to_nat (chunk_count (Z.min (t0 + chunk_size) end_date) end_date)).
Proof.
  intros Hlt. pose proof chunk_size_pos as Hc. unfold chunk_count.
  destruct (Z.le_gt_cases (t0 + chunk_size) end_date) as [Hfull|Hlast].
  - rewrite Z.min_l by assumption.
    replace (end_date - t0 + chunk_size - 1)
      with ((end_date - (t0 + chunk_size) + chunk_size - 1)
            + 1 * chunk_size) by lia.
    rewrite Z.div_add by lia.
    assert (0 <= (end_date - (t0 + chunk_size) + chunk_size - 1)
                 / chunk_size) by (apply Z.div_pos; lia).
    lia.
  - rewrite Z.min_r by lia.
    replace (end_date - end_date + chunk_size - 1) with (chunk_size - 1)
      by lia.
    rewrite (Z.div_small (chunk_size - 1)) by lia.
    replace (end_date - t0 + chunk_size - 1)
      with ((end_date - t0 - 1) + 1 * chunk_size) by lia.
    rewrite Z.div_add by lia.
    rewrite (Z.div_small (end_date - t0 - 1)) by lia.
    reflexivity.
Qed.

Lemma chunks_from_count bs : forall t0 end_date,
  chunks_from t0 end_date bs ->
  List.length bs = Z.to_nat (chunk_count t0 end_date).
Proof.
  induction bs as [|[s e] bs IH]; intros t0 end_date Hch.
  - simpl in *. symmetry. now apply chunk_count_done.
  - destruct Hch as (Hlt & -> & -> & Hrest).
    rewrite chunk_count_step by assumption.
    simpl. f_equal. now apply IH.
Qed.

Lemma chunks_from_full_but_last bs : forall t0 end_date,
  chunks_from t0 end_date bs -> full_but_last bs.
Proof.
  induction bs as [|[s e] bs IH]; intros t0 end_date Hch; [exact I|].
  destruct Hch as (Hlt & -> & -> & Hrest).
  cbn [full_but_last]. destruct bs as [|[s' e'] bs']; [exact I|].
  split; [|eapply IH; exact Hrest].
  destruct Hrest as (Hlt' & _). lia.
Qed.

Lemma chunks_from_within bs : forall t0 end_date,
  chunks_from t0 end_date bs ->
  Forall (fun se => t0 <= fst se /\ fst se < snd se /\ snd se <= end_date) bs.
Proof.
  pose proof chunk_size_pos as Hc.
  induction bs as [|[s e] bs IH]; intros t0 end_date Hch; [constructor|].
  destruct Hch as (Hlt & -> & -> & Hrest).
  constructor; [simpl; lia|].
  eapply Forall_impl; [|eapply IH; exact Hrest].
  simpl. intros [a b]. simpl. lia.
Qed.

(** The three chunks of the script's own window. *)
Lemma window_chunks_shape now bs :
  chunk_boundaries (window_start now) now = inr bs ->
  bs = [(now - days 729, now - days 484);
        (now - days 484, now - days 239);
        (now - days 239, now)].
Proof.
  intros H. apply chunk_boundaries_shape in H.
  unfold window_start in *.
  destruct bs as [|[s1 e1] bs];
    cbn [chunks_from] in H; unfold chunk_size, days in *;
    [exfalso; lia|].
  destruct H as (_ & -> & -> & H).
  destruct bs as [|[s2 e2] bs];
    cbn [chunks_from] in H; unfold chunk_size, days in *;
    [exfalso; lia|].
  destruct H as (_ & -> & -> & H).
  destruct bs as [|[s3 e3] bs];
    cbn [chunks_from] in H; unfold chunk_size, days in *;
    [exfalso; lia|].
  destruct H as (_ & -> & -> & H).
  destruct bs as [|[s4 e4] bs];
    cbn [chunks_from] in H; unfold chunk_size, days in *;
    [|exfalso; lia].
  repeat (f_equal; try lia).
Qed.

Lemma window_chunks now :
  clock_range now ->
  chunk_boundaries (window_start now) now
  = inr [(now - days 729, now - days 484);
         (now - days 484, now - days 239);
         (now - days 239, now)].
Proof.
  intros [Hlo Hhi].
  destruct (chunk_boundaries_in_range (window_start now) now)
    as (bs & Hbs).
  { left. unfold chunks_in_range, window_start, days in *. lia. }
  rewrite Hbs. f_equal. now apply window_chunks_shape.
Qed.

Lemma window_start_in_range now :
  clock_range now -> dt_add now (- days 729) = inr (window_start now).
Proof.
  intros [Hlo Hhi]. rewrite dt_add_in_range; [reflexivity|].
  unfold chunk_size, days, datetime_max in *. lia.
Qed.

(** X1.  Whenever the loop returns a boundary list, the number of
    chunks is the length of the window divided by 245 days, rounded
    up; every chunk but the last is exactly 245 days long; and every
    chunk lies inside the window.  It returns a list when the window
    starts at a datetime and ends at least 245 days before
    [datetime.max], and the empty list when the window is empty or
    reversed. *)
Theorem chunk_count_and_sizes (start_date end_date : datetime) :
  (forall bs, chunk_boundaries start_date end_date = inr bs ->
     List.length bs = Z.to_nat (chunk_count start_date end_date)
     /\ full_but_last bs
     /\ Forall (fun se => start_date <= fst se /\ fst se < snd se
                          /\ snd se <= end_date) bs)
  /\ (chunks_in_range start_date end_date ->
      exists bs, chunk_boundaries start_date end_date = inr bs)
  /\ (end_date <= start_date ->
      chunk_boundaries start_date end_date = inr []).
Proof.
  split; [|split].
  - intros bs Hbs. apply chunk_boundaries_shape in Hbs.
    split; [now apply chunks_from_count|].
    split; [now apply (chunks_from_full_but_last bs start_date end_date)|].
    now apply chunks_from_within.
  - intros Hr. apply chunk_boundaries_in_range. now left.
  - intros Hle.
    destruct (chunk_boundaries_in_range start_date end_date)
      as (bs & Hbs); [now right|].
    rewrite Hbs. f_equal.
    apply chunk_boundaries_shape in Hbs.
    destruct bs as [|[s e] rest]; [reflexivity|].
    cbn [chunks_from] in Hbs. lia.
Qed.

Lemma chunk_count_and_sizes_witness :
  List.length [(0, days 245); (days 245, days 490); (days 490, days 729)]
  = Z.to_nat (chunk_count 0 (days 729))
  /\ chunk_boundaries (days 10) (days 3) = inr [].
Proof.
  split.
  - apply (proj1 (chunk_count_and_sizes 0 (days 729))
             [(0, days 245); (days 245, days 490); (days 490, days 729)]).
    apply chunk_boundaries_729.
  - apply (proj2 (proj2 (chunk_count_and_sizes (days 10) (days 3)))).
    discriminate.
Defined.

(** X2.  At any time of the run from which the window and its chunks
    stay in range, the window of 729 days is downloaded in exactly
    three chunks: two of 245 days and a last one of 239 days that ends
    at the time of the run. *)
Theorem script_window_three_chunks (now : datetime) :
  clock_range now ->
  dt_add now (- days 729) = inr (window_start now)
  /\ chunk_boundaries (window_start now) now
     = inr [(now - days 729, now - days 484);
            (now - days 484, now - days 239);
            (now - days 239, now)]
  /\ (now - days 484) - (now - days 729) = days 245
  /\ (now - days 239) - (now - days 484) = days 245
  /\ now - (now - days 239) = days 239.
Proof.
  intros Hnow. split; [now apply window_start_in_range|].
  split; [now apply window_chunks|]. unfold days. lia.
Qed.

Lemma script_window_three_chunks_witness :
  chunk_boundaries (window_start sample_now) sample_now
  = inr [(sample_now - days 729, sample_now - days 484);
         (sample_now - days 484, sample_now - days 239);
         (sample_now - days 239, sample_now)].
Proof.
  apply (script_window_three_chunks sample_now).
  split; discriminate.
Defined.

(** X17.  Whenever the loop returns a boundary list, every instant of
    the window from [start_date] up to [end_date] lies in exactly one
    chunk, the chunks being read as closed at their start and open at
    their end. *)
Theorem every_instant_in_one_chunk (start_date end_date x : datetime)
  (bs : list (datetime * datetime)) :
  chunk_boundaries start_date end_date = inr bs ->
  start_date <= x < end_date ->
  exists s e,
    In (s, e) bs
    /\ s <= x < e
    /\ forall s' e', In (s', e') bs -> s' <= x < e' -> (s', e') = (s, e).
Proof.
  intros Hbs. apply chunk_boundaries_shape in Hbs. revert Hbs.
  revert start_date.
  induction bs as [|[s e] bs IH]; intros t0 Hch Hx.
  - simpl in Hch. lia.
  - destruct Hch as (Hlt & -> & He & Hrest).
    pose proof (chunks_from_within bs e end_date Hrest) as Hwithin.
    rewrite Forall_forall in Hwithin.
    destruct (Z.lt_ge_cases x e) as [Hin|Hout].
    + exists t0, e. split; [now left|]. split; [lia|].
      intros s' e' [Heq|Hin'] Hx'; [now symmetry|].
      specialize (Hwithin _ Hin'). simpl in Hwithin. lia.
    + destruct (IH e Hrest) as (s1 & e1 & Hin1 & Hx1 & Huniq); [lia|].
      exists s1, e1. split; [now right|]. split; [assumption|].
      intros s' e' [Heq|Hin'] Hx'.
      * injection Heq as <- <-. lia.
      * now apply Huniq.
Qed.

Lemma every_instant_in_one_chunk_witness :
  exists s e,
    In (s, e) [(0, days 245); (days 245, days 490); (days 490, days 729)]
    /\ s <= days 300 < e
    /\ forall s' e',
         In (s', e')
            [(0, days 245); (days 245, days 490); (days 490, days 729)] ->
         s' <= days 300 < e' -> (s', e') = (s, e).
Proof.
  apply (every_instant_in_one_chunk 0 (days 729) (days 300)).
  - apply chunk_boundaries_729.
  - split; [discriminate|reflexivity].
Defined.

End ChunkShapeFacts.

(* ------------------------------------------------------------------ *)
(** ** Cleaning a frame that is already clean *)

Section FrameCleanFacts.
Import Frame.

Lemma sorted_lt_le (l : list Z) :
  StronglySorted Z.lt l -> StronglySorted Z.le l.
Proof.
  induction 1 as [|x l Hs IH Hall]; constructor; [assumption|].
  eapply Forall_impl; [|exact Hall]. simpl. intros; lia.
Qed.

Lemma sorted_lt_NoDup_Z (l : list Z) : StronglySorted Z.lt l -> NoDup l.
Proof.
  induction 1 as [|x l Hs IH Hall]; constructor; [|assumption].
  intros Hin. rewrite Forall_forall in Hall. specialize (Hall _ Hin). lia.
Qed.

Lemma same_index_same_row df a b :
  StronglySorted Z.lt (map index df) ->
  In a df -> In b df -> index a = index b -> a = b.
Proof.
  induction df as [|x df IH]; intros Hs Ha Hb Heq; [destruct Ha|].
  simpl in Hs. inversion Hs as [|? ? Hrest Hall]; subst.
  rewrite Forall_forall in Hall.
  destruct Ha as [->|Ha], Hb as [->|Hb]; auto.
  - assert (index a < index b) by (apply Hall; now apply in_map). lia.
  - assert (index b < index a) by (apply Hall; now apply in_map). lia.
Qed.

(** Any sort leaves a frame with strictly increasing timestamps as it
    is. *)
Lemma sort_index_sorted_id sort_index df :
  is_index_sort sort_index ->
  StronglySorted Z.lt (map index df) -> sort_index df = df.
Proof.
  intros Hsort Hs. destruct (Hsort df) as [Hperm Hasc].
  symmetry.
  apply (sorted_perm_unique (fun a b => index a <= index b));
    [exact Hperm| | |].
  - apply sorted_lt_le in Hs. clear - Hs.
    induction df as [|x df IH]; [constructor|].
    simpl in Hs. inversion Hs as [|? ? Hrest Hall]; subst.
    constructor; [auto|]. now rewrite Forall_map in Hall.
  - unfold ascending in Hasc. clear - Hasc.
    induction (sort_index df) as [|x l IH]; [constructor|].
    simpl in Hasc. inversion Hasc as [|? ? Hrest Hall]; subst.
    constructor; [auto|]. now rewrite Forall_map in Hall.
  - intros a b Ha Hb H1 H2.
    apply (same_index_same_row df); auto. lia.
Qed.

(** Duplicate removal leaves a frame without duplicates as it is. *)
Lemma dedup_from_id df : forall seen,
  NoDup (map index df) ->
  (forall b, In b df -> ~ In (index b) seen) ->
  dedup_from seen df = df.
Proof.
  induction df as [|x df IH]; intros seen Hnd Hseen; [reflexivity|].
  rewrite dedup_from_cons.
  simpl in Hnd. inversion Hnd as [|? ? Hx Hnd']; subst.
  destruct (existsb (Z.eqb (index x)) seen) eqn:Hex.
  - apply existsb_eqb_In in Hex. exfalso.
    apply (Hseen x); [now left|assumption].
  - f_equal. apply IH; [assumption|].
    intros b Hb [Heq|Hin].
    + apply Hx. rewrite Heq. now apply in_map.
    + apply (Hseen b); [now right|assumption].
Qed.

Lemma concat_sort_dedup_clean sort_index df :
  is_index_sort sort_index ->
  StronglySorted Z.lt (map index df) ->
  concat_sort_dedup sort_index [df] = df.
Proof.
  intros Hsort Hs. unfold concat_sort_dedup, drop_duplicated.
  simpl. rewrite app_nil_r.
  rewrite (sort_index_sorted_id sort_index df Hsort Hs).
  apply (dedup_from_id df []); [now apply sorted_lt_NoDup_Z|].
  intros b _ [].
Qed.

Lemma concat_sort_dedup_increasing sort_index frames :
  is_index_sort sort_index ->
  StronglySorted Z.lt (map index (concat_sort_dedup sort_index frames)).
Proof.
  intros Hsort.
  apply (dedup_from_increasing [] (sort_index (concat frames))).
  apply Hsort.
Qed.

Lemma dedup_from_length seen df :
  (List.length (dedup_from seen df) <= List.length df)%nat.
Proof.
  revert seen. induction df as [|x df IH]; intros seen; [apply le_n|].
  rewrite dedup_from_cons.
  destruct (existsb (Z.eqb (index x)) seen); simpl;
    specialize (IH (index x :: seen)); lia.
Qed.

(** X3.  Whatever sort the library uses, cleaning is idempotent: a
    frame whose timestamps already strictly increase passes lines
    40-41 unchanged, so cleaning the cleaned frame again changes
    nothing; and cleaning never adds rows. *)
Theorem cleaning_idempotent (sort_index : DataFrame -> DataFrame)
  (frames : list DataFrame) :
  is_index_sort sort_index ->
  concat_sort_dedup sort_index [concat_sort_dedup sort_index frames]
  = concat_sort_dedup sort_index frames
  /\ (forall df, StronglySorted Z.lt (map index df) ->
        concat_sort_dedup sort_index [df] = df)
  /\ (List.length (concat_sort_dedup sort_index frames)
      <= List.length (concat frames))%nat.
Proof.
  intros Hsort. split; [|split].
  - apply concat_sort_dedup_clean; [assumption|].
    now apply concat_sort_dedup_increasing.
  - intros df. now apply concat_sort_dedup_clean.
  - unfold concat_sort_dedup.
    change (drop_duplicated (sort_index (concat frames)))
      with (dedup_from [] (sort_index (concat frames))).
    etransitivity; [apply dedup_from_length|].
    rewrite <- (Permutation_length (proj1 (Hsort (concat frames)))).
    apply le_n.
Qed.

Lemma cleaning_idempotent_witness :
  concat_sort_dedup reversing_sort
    [[Samples.sb0; Samples.sb1; Samples.sb2]]
  = [Samples.sb0; Samples.sb1; Samples.sb2].
Proof.
  apply (proj1 (proj2 (cleaning_idempotent reversing_sort []
                         reversing_sort_ok))).
  repeat constructor.
Defined.

End FrameCleanFacts.

(* ------------------------------------------------------------------ *)
(** ** More on feature construction *)

Section MoreFeaturesFacts.
Import F64 Frame Features Columns.

Lemma Subseq_In {A} (xs ys : list A) x :
  Subseq xs ys -> In x xs -> In x ys.
Proof.
  induction 1 as [|y xs ys Hs IH|y xs ys Hs IH]; simpl; intuition.
Qed.

Lemma Subseq_sorted {A} (R : A -> A -> Prop) xs ys :
  Subseq xs ys -> StronglySorted R ys -> StronglySorted R xs.
Proof.
  induction 1 as [|y xs ys Hs IH|y xs ys Hs IH]; intros Hsorted.
  - constructor.
  - inversion Hsorted; subst. auto.
  - inversion Hsorted as [|? ? Hys Hall]; subst.
    constructor; [auto|].
    rewrite Forall_forall in *. intros x Hx.
    apply Hall. eapply Subseq_In; eassumption.
Qed.

(** The timestamps that come out are among those after the first bar,
    in the same order. *)
Lemma FeatureBuilder_timestamps m data :
  Subseq (map timestamp (FeatureBuilder m data)) (map index (tl data)).
Proof.
  rewrite FeatureBuilder_tail.
  replace (map index (tl data))
    with (map timestamp (map replace_inf_row (tl (add_features m data)))).
  - apply Subseq_map, Subseq_filter.
  - rewrite map_map. unfold timestamp.
    cbn [replace_inf_row src replace_inf_bar index].
    rewrite <- (map_src_add_features m data) at 2.
    destruct (add_features m data); [reflexivity|].
    cbn [tl map]. now rewrite map_map.
Qed.

Lemma sorted_tl {A} (R : A -> A -> Prop) (l : list A) :
  StronglySorted R l -> StronglySorted R (tl l).
Proof. destruct 1; [constructor|assumption]. Qed.

(** X4.  Feature construction keeps the rows in time order: when the
    timestamps of the input strictly increase, so do those of the
    output, and this is the case for whatever was downloaded once
    lines 40-41 have run, whatever sort the library uses. *)
Theorem features_keep_time_order m :
  (forall data, StronglySorted Z.lt (map index data) ->
     StronglySorted Z.lt (map timestamp (FeatureBuilder m data)))
  /\ (forall sort_index frames, is_index_sort sort_index ->
        StronglySorted Z.lt
          (map timestamp
               (FeatureBuilder m (concat_sort_dedup sort_index frames)))).
Proof.
  assert (H : forall data, StronglySorted Z.lt (map index data) ->
     StronglySorted Z.lt (map timestamp (FeatureBuilder m data))).
  { intros data Hs.
    eapply Subseq_sorted; [apply FeatureBuilder_timestamps|].
    rewrite <- (map_src_add_features m data) in Hs |- *.
    destruct (add_features m data); [constructor|].
    cbn [map tl] in *. now inversion Hs. }
  split; [exact H|].
  intros sort_index frames Hsort. apply H.
  now apply concat_sort_dedup_increasing.
Qed.

Lemma features_keep_time_order_witness :
  StronglySorted Z.lt
    (map timestamp (FeatureBuilder pad Samples.sample_bars)).
Proof.
  apply (proj1 (features_keep_time_order pad) Samples.sample_bars).
  repeat constructor.
Defined.

(** X5.  With no bar or a single bar there is nothing to compare with:
    the observation matrix is empty. *)
Theorem fewer_than_two_bars_no_rows m (data : DataFrame) :
  (List.length data <= 1)%nat ->
  FeatureBuilder m data = []
  /\ ObservationMatrix (FeatureBuilder m data) = [].
Proof.
  intros Hlen.
  assert (H : FeatureBuilder m data = []).
  { pose proof (FeatureBuilder_timestamps m data) as Hs.
    apply Subseq_length in Hs. rewrite !length_map in Hs.
    assert (Htl : List.length (tl data) = 0%nat)
      by (destruct data as [|b [|b' rest]]; simpl in *; lia).
    destruct (FeatureBuilder m data); [reflexivity|].
    simpl in Hs. lia. }
  now rewrite H.
Qed.

Lemma fewer_than_two_bars_no_rows_witness :
  FeatureBuilder pad [Samples.sb0] = []
  /\ ObservationMatrix (FeatureBuilder pad [Samples.sb0]) = [].
Proof.
  apply (fewer_than_two_bars_no_rows pad [Samples.sb0]).
  apply le_n.
Defined.

Lemma one_bits : one = S754_finite false 4503599627370496 (-52).
Proof. vm_compute. reflexivity. Qed.

(** Dividing by zero never gives a finite number, and subtracting one
    does not repair it. *)
Lemma div_zero_not_finite x z :
  is_zero z = true -> is_finite (div x z) = false.
Proof. destruct z; try discriminate. intros _. now destruct x. Qed.

Lemma sub_one_not_finite x :
  is_finite x = false -> is_finite (sub x one) = false.
Proof.
  rewrite one_bits. destruct x as [s|s| |s m e]; try discriminate;
    intros _; [now destruct s|reflexivity].
Qed.

(** Where an output row comes from. *)
Lemma FeatureBuilder_In m data r :
  In r (FeatureBuilder m data) ->
  exists i r0, nth_error (add_features m data) i = Some r0
    /\ nth_error data i = Some (src r0)
    /\ r = replace_inf_row r0
    /\ is_finite (return_ r0) = true
    /\ is_finite (range r0) = true
    /\ is_finite (vol_change r0) = true.
Proof.
  unfold FeatureBuilder, dropna. intros Hin.
  apply filter_In in Hin. destruct Hin as [Hin Hk].
  apply in_map_iff in Hin. destruct Hin as (r0 & <- & Hr0).
  apply In_nth_error in Hr0. destruct Hr0 as (i & Hi).
  exists i, r0. split; [exact Hi|]. split.
  - rewrite <- (map_src_add_features m data) at 1.
    now apply map_nth_error.
  - split; [reflexivity|].
    unfold notna_features, replace_inf_row in Hk. simpl in Hk.
    rewrite !andb_true_iff, !negb_true_iff in Hk.
    destruct Hk as [[H1 H2] H3].
    apply replace_inf_notna in H1, H2, H3. tauto.
Qed.

(** X6.  A bar that follows a bar with a zero close or a zero volume,
    or whose own close is zero, gives no row: the division by zero is
    infinite or undefined and line 57 drops it. *)
Theorem zero_denominator_row_dropped m (data : DataFrame) t prev cur :
  m = no_fill
  \/ Forall (fun b => is_nan (Close b) = false
                      /\ is_nan (Volume b) = false) data ->
  NoDup (map index data) ->
  nth_error data t = Some prev ->
  nth_error data (S t) = Some cur ->
  is_zero (Close prev) = true \/ is_zero (Volume prev) = true
  \/ is_zero (Close cur) = true ->
  ~ In (index cur) (map timestamp (FeatureBuilder m data)).
Proof.
  intros Hfill Hnd Hprev Hcur Hzero Hin.
  apply in_map_iff in Hin. destruct Hin as (r & Hts & Hr).
  apply FeatureBuilder_In in Hr.
  destruct Hr as (i & r0 & Hi & Hsrc & -> & Hf1 & Hf2 & Hf3).
  unfold timestamp in Hts. simpl in Hts.
  assert (i = S t).
  { apply (proj1 (NoDup_nth_error (map index data)) Hnd).
    - rewrite length_map. apply nth_error_Some. congruence.
    - rewrite (map_nth_error index _ _ Hsrc),
              (map_nth_error index _ _ Hcur). now f_equal. }
  subst i.
  rewrite (add_features_nth m data t prev cur Hfill Hprev Hcur) in Hi.
  injection Hi as <-. simpl in Hf1, Hf2, Hf3.
  destruct Hzero as [Hz|[Hz|Hz]].
  - unfold return_formula in Hf1.
    rewrite sub_one_not_finite in Hf1; [discriminate|].
    now apply div_zero_not_finite.
  - unfold vol_change_formula in Hf3.
    rewrite sub_one_not_finite in Hf3; [discriminate|].
    now apply div_zero_not_finite.
  - unfold range_formula in Hf2.
    rewrite div_zero_not_finite in Hf2; [discriminate|assumption].
Qed.

Lemma zero_denominator_row_dropped_witness :
  ~ In (2 * 3600000000)
       (map timestamp (FeatureBuilder pad Samples.zero_volume_bars)).
Proof.
  apply (zero_denominator_row_dropped pad Samples.zero_volume_bars 1
           (Samples.sample_bar 1 110 0) (Samples.sample_bar 2 99 15)).
  - right. repeat constructor.
  - repeat constructor; simpl; intuition discriminate.
  - reflexivity.
  - reflexivity.
  - right. left. reflexivity.
Defined.

Lemma fill_notna m xs :
  Forall (fun x => is_nan x = false) xs -> fill m xs = xs.
Proof. destruct m; [apply ffill_from_notna|reflexivity]. Qed.

(** X7.  On columns without missing values the fill default of
    [pct_change] makes no difference: forward-filling first or not,
    the rows that come out are the same. *)
Theorem fill_default_irrelevant_without_missing (data : DataFrame) :
  Forall (fun b => is_nan (Close b) = false
                   /\ is_nan (Volume b) = false) data ->
  add_features pad data = add_features no_fill data
  /\ FeatureBuilder pad data = FeatureBuilder no_fill data.
Proof.
  intros Hnn.
  assert (H : add_features pad data = add_features no_fill data).
  { unfold add_features, pct_change.
    rewrite !fill_notna; try reflexivity;
      rewrite Forall_map; eapply Forall_impl; try exact Hnn;
      simpl; tauto. }
  split; [exact H|]. unfold FeatureBuilder. now rewrite H.
Qed.

Lemma fill_default_irrelevant_without_missing_witness :
  FeatureBuilder pad Samples.hourly_bars
  = FeatureBuilder no_fill Samples.hourly_bars.
Proof.
  apply (fill_default_irrelevant_without_missing Samples.hourly_bars).
  repeat constructor.
Defined.

Lemma map_filter_comm {A B} (f : A -> B) (p : A -> bool) (q : B -> bool) l :
  (forall x, p x = q (f x)) ->
  map f (filter p l) = filter q (map f l).
Proof.
  intros Hpq. induction l as [|x l IH]; [reflexivity|].
  simpl. rewrite <- Hpq. destruct (p x); simpl; now rewrite IH.
Qed.

Lemma zip_with_features (data : DataFrame) :
  forall cols : list (float * (float * float)),
  List.length data = List.length cols ->
  map features
      (zip_with (fun b f => FRow b (fst f) (fst (snd f)) (snd (snd f)))
                data cols)
  = map (fun f => (fst f, fst (snd f), snd (snd f))) cols.
Proof.
  induction data as [|b data IH]; intros [|c cols] Hlen;
    try discriminate; [reflexivity|].
  simpl. f_equal. apply IH. simpl in Hlen. lia.
Qed.

(** The observation matrix written with the input columns alone. *)
Lemma ObservationMatrix_columns m data :
  ObservationMatrix (FeatureBuilder m data)
  = filter notna_obs
      (map replace_inf_obs
         (map (fun f => (fst f, fst (snd f), snd (snd f)))
              (combine (pct_change m (map (fun i => snd (fst i))
                                          (map inputs data)))
                 (combine
                    (map (fun i => div (sub (fst (fst (fst i)))
                                            (snd (fst (fst i))))
                                       (snd (fst i)))
                         (map inputs data))
                    (pct_change m (map snd (map inputs data))))))).
Proof.
  unfold ObservationMatrix, FeatureBuilder, dropna.
  rewrite (map_filter_comm features notna_features notna_obs)
    by reflexivity.
  rewrite map_map.
  rewrite (map_ext (fun r => features (replace_inf_row r))
                   (fun r => replace_inf_obs (features r)))
    by reflexivity.
  rewrite <- (map_map features replace_inf_obs).
  unfold add_features. rewrite zip_with_features.
  - rewrite !map_map. reflexivity.
  - rewrite !length_combine, !pct_change_length, !length_map. lia.
Qed.

(** X8.  The observation matrix is a function of the high, low, close
    and volume columns alone: the open prices and the timestamps of
    the bars have no influence on it. *)
Theorem observations_ignore_open_and_time m (data data' : DataFrame) :
  map inputs data = map inputs data' ->
  ObservationMatrix (FeatureBuilder m data)
  = ObservationMatrix (FeatureBuilder m data').
Proof.
  intros Heq. rewrite !ObservationMatrix_columns. now rewrite Heq.
Qed.

Lemma observations_ignore_open_and_time_witness :
  ObservationMatrix (FeatureBuilder pad Samples.sample_bars)
  = ObservationMatrix
      (FeatureBuilder pad
         (map (fun b => Bar (index b + 7) nan (High b) (Low b) (Close b)
                            (Volume b))
              Samples.sample_bars)).
Proof.
  apply (observations_ignore_open_and_time pad).
  reflexivity.
Defined.

End MoreFeaturesFacts.

(* ------------------------------------------------------------------ *)
(** ** More on the summary table, and the chart *)

Section MoreSummaryFacts.
Import F64 Frame Features Summary Plot.

Lemma list_sum_perm l l' :
  Permutation l l' -> list_sum l = list_sum l'.
Proof. induction 1; simpl; lia. Qed.

Lemma list_sum_map_add {A} (f g : A -> nat) l :
  list_sum (map (fun x => f x + g x)%nat l)
  = (list_sum (map f l) + list_sum (map g l))%nat.
Proof. induction l as [|x l IH]; simpl; lia. Qed.

(** Among distinct keys exactly one is the label of a given row. *)
Lemma indicator_sum (s : nat) keys :
  NoDup keys ->
  list_sum (map (fun k => if (s =? k)%nat then 1 else 0)%nat keys)
  = if existsb (Nat.eqb s) keys then 1%nat else 0%nat.
Proof.
  induction 1 as [|k keys Hk Hnd IH]; [reflexivity|].
  simpl. rewrite IH. destruct (Nat.eqb_spec s k) as [->|Hne]; simpl.
  - destruct (existsb (Nat.eqb k) keys) eqn:Hex; [|reflexivity].
    apply existsb_exists in Hex. destruct Hex as (x & Hx & Heq).
    apply Nat.eqb_eq in Heq. subst x. contradiction.
  - reflexivity.
Qed.

Lemma group_sizes_sum keys (rows : list srow) :
  NoDup keys ->
  (forall r, In r rows -> In (state r) keys) ->
  list_sum (map (fun k => List.length
                            (filter (fun r => (state r =? k)%nat) rows))
                keys)
  = List.length rows.
Proof.
  intros Hnd. induction rows as [|r rows IH]; intros Hcover.
  - clear. induction keys as [|k keys IH]; simpl; auto.
  - rewrite (map_ext _
       (fun k => ((if (state r =? k)%nat then 1 else 0)
                  + List.length
                      (filter (fun r => (state r =? k)%nat) rows))%nat)).
    + rewrite list_sum_map_add, IH, (indicator_sum _ _ Hnd).
      * assert (Hex : existsb (Nat.eqb (state r)) keys = true).
        { apply existsb_exists. exists (state r).
          split; [apply Hcover; now left|apply Nat.eqb_refl]. }
        rewrite Hex. reflexivity.
      * intros r' Hr'. apply Hcover. now right.
    + intros k. simpl. destruct (state r =? k)%nat; reflexivity.
Qed.

Section AnyAggregates.
Variables mean std : list float -> float.
Variable sort_values : list entry -> list entry.
Hypothesis sort_values_ok : is_desc_sort sort_values.

Lemma summary_length rows :
  List.length (summary mean std sort_values rows) = List.length (group_keys rows).
Proof.
  rewrite <- (Permutation_length (summary_perm mean std sort_values sort_values_ok rows)).
  unfold agg. apply length_map.
Qed.

(** The total of the counts, for any decoded frame. *)
Lemma summary_counts_total (rows : list srow) :
  Forall (fun r => is_nan (return_ (feat r)) = false) rows ->
  list_sum (map Count (summary mean std sort_values rows)) = List.length rows.
Proof.
  intros Hnn.
  rewrite <- (list_sum_perm _ _
                (Permutation_map Count (summary_perm mean std sort_values sort_values_ok rows))).
  unfold agg. rewrite map_map. cbn [Count].
  rewrite (map_ext_in _
     (fun k => List.length (filter (fun r => (state r =? k)%nat) rows))).
  - apply group_sizes_sum.
    + apply sorted_lt_NoDup, group_keys_sorted.
    + intros r Hr. apply group_keys_In. now apply in_map.
  - intros k _. unfold group. rewrite count_notna, length_map; [reflexivity|].
    rewrite Forall_map. rewrite Forall_forall in *.
    intros r Hr. apply filter_In in Hr. now apply Hnn.
Qed.

(** X9.  The counts of the summary add up to the number of decoded
    rows when no return is missing: every row is counted in exactly
    one regime, and each count is the size of its group. *)
Theorem summary_counts_add_up (rows : list srow) :
  Forall (fun r => is_nan (return_ (feat r)) = false) rows ->
  list_sum (map Count (summary mean std sort_values rows)) = List.length rows
  /\ forall e, In e (summary mean std sort_values rows) ->
       (1 <= Count e)%nat
       /\ Count e
          = List.length (filter (fun r => (state r =? label e)%nat) rows).
Proof.
  intros Hnn. split; [now apply summary_counts_total|].
  intros e He. destruct (summary_entry mean std sort_values sort_values_ok rows e He) as [Hl Heq].
  assert (Hc : Count e
          = List.length (filter (fun r => (state r =? label e)%nat) rows)).
  { rewrite Heq at 1. cbn [Count]. unfold group.
    rewrite count_notna, length_map; [reflexivity|].
    rewrite Forall_map. rewrite Forall_forall in *.
    intros r Hr. apply filter_In in Hr. now apply Hnn. }
  split; [|exact Hc]. rewrite Hc.
  apply in_map_iff in Hl. destruct Hl as (r & Hst & Hr).
  assert (Hin : In r (filter (fun r => (state r =? label e)%nat) rows)).
  { apply filter_In. split; [assumption|]. now apply Nat.eqb_eq. }
  destruct (filter _ rows); [destruct Hin|simpl; lia].
Qed.

(** X10.  The summary never has more lines than there are decoded
    rows, nor more than there are states when every label is below the
    number of states; without rows it is empty. *)
Theorem summary_size_bounds (rows : list srow) (K : nat) :
  (List.length (summary mean std sort_values rows) <= List.length rows)%nat
  /\ (Forall (fun r => (state r < K)%nat) rows ->
      (List.length (summary mean std sort_values rows) <= K)%nat)
  /\ (rows = [] -> summary mean std sort_values rows = []).
Proof.
  pose proof (sorted_lt_NoDup _ (group_keys_sorted rows)) as Hnd.
  rewrite summary_length. split; [|split].
  - rewrite <- (length_map state rows).
    apply NoDup_incl_length; [exact Hnd|].
    intros k Hk. now apply group_keys_In.
  - intros Hlt. rewrite <- (length_seq K 0).
    apply NoDup_incl_length; [exact Hnd|].
    intros k Hk. apply group_keys_In in Hk.
    apply in_map_iff in Hk. destruct Hk as (r & <- & Hr).
    rewrite Forall_forall in Hlt. apply in_seq. specialize (Hlt r Hr). lia.
  - intros ->. apply Permutation_nil.
    apply (proj1 (sort_values_ok (agg mean std []))).
Qed.

End AnyAggregates.

Lemma summary_counts_add_up_witness :
  list_sum (map Count (summary mean_f64 std_f64 sort_values_desc three_regimes)) = 3%nat.
Proof.
  apply (proj1 (summary_counts_add_up mean_f64 std_f64 sort_values_desc
                  sort_values_desc_ok three_regimes
                  ltac:(repeat constructor))).
Defined.

Lemma summary_size_bounds_witness :
  (List.length (summary mean_f64 std_f64 sort_values_desc three_regimes) <= 7)%nat.
Proof.
  apply (summary_size_bounds mean_f64 std_f64 sort_values_desc
           sort_values_desc_ok three_regimes 7).
  repeat constructor.
Defined.

(** Two filters that never both hold split a list. *)
Lemma filter_disjoint_perm {A} (p q : A -> bool) l :
  (forall x, p x = true -> q x = false) ->
  Permutation (filter p l ++ filter q l) (filter (fun x => p x || q x) l).
Proof.
  intros Hdis. induction l as [|x l IH]; simpl; [constructor|].
  destruct (p x) eqn:Hp; simpl.
  - rewrite (Hdis x Hp). now constructor.
  - destruct (q x); simpl; [|assumption].
    rewrite <- IH. symmetry. apply Permutation_middle.
Qed.

Lemma filter_all {A} (p : A -> bool) l :
  (forall x, In x l -> p x = true) -> filter p l = l.
Proof.
  induction l as [|x l IH]; intros H; [reflexivity|].
  simpl. rewrite (H x (or_introl eq_refl)). f_equal.
  apply IH. intros y Hy. apply H. now right.
Qed.

Lemma groups_partition keys (rows : list srow) :
  NoDup keys ->
  Permutation
    (concat (map (fun k => filter (fun r => (state r =? k)%nat) rows) keys))
    (filter (fun r => existsb (Nat.eqb (state r)) keys) rows).
Proof.
  induction 1 as [|k keys Hk Hnd IH]; simpl.
  - induction rows; simpl; auto.
  - rewrite IH.
    rewrite (filter_disjoint_perm
               (fun r => (state r =? k)%nat)
               (fun r => existsb (Nat.eqb (state r)) keys)); [reflexivity|].
    intros r Hr. apply Nat.eqb_eq in Hr.
    destruct (existsb (Nat.eqb (state r)) keys) eqn:Hex; [|reflexivity].
    apply existsb_exists in Hex. destruct Hex as (x & Hx & Heq).
    apply Nat.eqb_eq in Heq. subst. contradiction.
Qed.

(** X11.  The chart shows the last 500 rows, or all rows when there
    are fewer; the scatter series, one per state present in that
    window in ascending order, are never empty, and together they
    contain every point of the price line exactly once. *)
Theorem chart_window_and_series (data : list srow) :
  let window := last500 data in
  let series := scatter_series window in
  List.length window = Nat.min 500 (List.length data)
  /\ (exists earlier, data = earlier ++ window)
  /\ StronglySorted lt (map fst series)
  /\ (forall k, In k (map fst series) <-> In k (map state window))
  /\ Forall (fun s => snd s <> []) series
  /\ Permutation (concat (map snd series)) (line_points window).
Proof.
  intros window series.
  split; [|split; [|split; [|split; [|split]]]].
  - unfold window, last500, iloc_last. rewrite length_skipn. lia.
  - exists (firstn (List.length data - 500) data).
    unfold window, last500, iloc_last. symmetry. apply firstn_skipn.
  - unfold series, scatter_series. rewrite map_map. simpl.
    rewrite map_id. apply group_keys_sorted.
  - intros k. unfold series, scatter_series. rewrite map_map. simpl.
    rewrite map_id. apply group_keys_In.
  - unfold series, scatter_series. apply Forall_forall.
    intros s Hs. apply in_map_iff in Hs. destruct Hs as (k & <- & Hk).
    simpl. apply group_keys_In in Hk. apply in_map_iff in Hk.
    destruct Hk as (r & Hst & Hr). intros Hnil.
    apply map_eq_nil in Hnil.
    assert (Hin : In r (filter (fun r => (state r =? k)%nat) window)).
    { apply filter_In. split; [assumption|]. now apply Nat.eqb_eq. }
    rewrite Hnil in Hin. destruct Hin.
  - unfold series, scatter_series, line_points. rewrite map_map. simpl.
    rewrite <- (map_map (fun k => filter (fun r => (state r =? k)%nat) window)
                        (map point_of)).
    rewrite <- concat_map. apply Permutation_map.
    rewrite groups_partition
      by apply sorted_lt_NoDup, group_keys_sorted.
    rewrite filter_all; [reflexivity|].
    intros r Hr. apply existsb_exists. exists (state r).
    split; [|apply Nat.eqb_refl].
    apply group_keys_In. now apply in_map.
Qed.

End MoreSummaryFacts.

(* ------------------------------------------------------------------ *)
(** ** More on the run as a whole *)

Section MorePipelineFacts.
Import F64 Chunking ChunkShape Frame Features Summary Pipeline Gathered.

Section AnyRun.
Context {Params : Type}.
Variable yf_download : datetime -> datetime -> DataFrame.
Variable hmm_fit : HMMConfig -> list observation -> exn + Params.
Variable hmm_predict : Params -> list observation -> exn + list nat.
Variable sort_index : DataFrame -> DataFrame.
Variable sort_values : list entry -> list entry.
Variables mean std : list float -> float.
Variable fill_default : fill_method.

#[local] Abbreviation train_and_decode :=
  (train_and_decode hmm_fit hmm_predict sort_values mean std fill_default).
#[local] Abbreviation load_data := (load_data yf_download sort_index).
#[local] Abbreviation run :=
  (run yf_download hmm_fit hmm_predict sort_index sort_values mean std
       fill_default).

(** The download loop calls the downloader once per chunk, in order,
    and keeps the results that are not empty. *)
Lemma download_chunks_spec bs : forall frames tr,
  download_chunks yf_download bs frames tr
  = (tr ++ download_events bs, inr (frames ++ kept_frames yf_download bs)).
Proof.
  induction bs as [|[s e] bs IH]; intros frames tr.
  - simpl. unfold ret. now rewrite !app_nil_r.
  - cbn [download_chunks]. unfold bind at 1, emit.
    rewrite IH. unfold download_events, kept_frames. cbn [map filter fst snd].
    rewrite <- app_assoc. simpl. f_equal. f_equal.
    destruct (yf_download s e); simpl; [reflexivity|].
    now rewrite <- app_assoc.
Qed.

(** Loading, once the window and its chunks are known. *)
Lemma load_data_chunks now tr bs :
  dt_add now (- days 729) = inr (window_start now) ->
  chunk_boundaries (window_start now) now = inr bs ->
  load_data now tr
  = match kept_frames yf_download bs with
    | [] => (tr ++ download_events bs, inl "ValueError"%string)
    | frames => (tr ++ download_events bs,
                 inr (concat_sort_dedup sort_index frames))
    end.
Proof.
  intros Hstart Hbs. unfold Pipeline.load_data, bind, lift.
  rewrite Hstart, Hbs, download_chunks_spec. simpl.
  now destruct (kept_frames _ _).
Qed.

Lemma load_data_spec now tr :
  clock_range now ->
  load_data now tr
  = match kept_frames yf_download (script_chunks now) with
    | [] => (tr ++ script_downloads now, inl "ValueError"%string)
    | frames => (tr ++ script_downloads now,
                 inr (concat_sort_dedup sort_index frames))
    end.
Proof.
  intros Hnow.
  apply (load_data_chunks now tr (script_chunks now));
    [now apply window_start_in_range|now apply window_chunks].
Qed.

(** A load that succeeded went through the three chunks. *)
Lemma load_data_inr now tr tr' data :
  load_data now tr = (tr', inr data) ->
  tr' = tr ++ script_downloads now
  /\ kept_frames yf_download (script_chunks now) <> []
  /\ data = concat_sort_dedup sort_index
              (kept_frames yf_download (script_chunks now)).
Proof.
  intros Hload.
  assert (Hcases : exists bs,
            dt_add now (- days 729) = inr (window_start now)
            /\ chunk_boundaries (window_start now) now = inr bs).
  { revert Hload. unfold Pipeline.load_data, bind, lift.
    destruct (dt_add now (- days 729)) as [e|start_date] eqn:Hadd;
      [discriminate|].
    apply dt_add_inr in Hadd. subst start_date.
    change (now + - days 729) with (window_start now).
    destruct (chunk_boundaries (window_start now) now) as [e|bs];
      [discriminate|]. eauto. }
  destruct Hcases as (bs & Hstart & Hbs).
  pose proof (window_chunks_shape now bs Hbs) as Heq.
  change (bs = script_chunks now) in Heq. subst bs.
  rewrite (load_data_chunks now tr _ Hstart Hbs) in Hload.
  destruct (kept_frames yf_download (script_chunks now)) as [|f frames];
    [discriminate|].
  injection Hload as <- <-. repeat split. discriminate.
Qed.

Lemma run_spec now :
  clock_range now ->
  run now
  = match kept_frames yf_download (script_chunks now) with
    | [] => (script_downloads now, inl "ValueError"%string)
    | frames => train_and_decode (concat_sort_dedup sort_index frames)
                                 (script_downloads now)
    end.
Proof.
  intros Hnow. unfold Pipeline.run, main, bind.
  rewrite (load_data_spec now [] Hnow). simpl.
  now destruct (kept_frames _ _).
Qed.

Lemma train_and_decode_trace data tr :
  let X := ObservationMatrix (FeatureBuilder fill_default data) in
  fst (train_and_decode data tr)
  = tr ++ match hmm_fit model_config X with
          | inl _ => [Fit model_config X]
          | inr _ => [Fit model_config X; Predict X]
          end.
Proof.
  intros X. rewrite train_and_decode_cases. fold X.
  destruct (hmm_fit model_config X) as [e|params]; [reflexivity|].
  cbv zeta. rewrite <- app_assoc.
  destruct (hmm_predict params X) as [e|states];
    [|destruct (_ =? _)%nat]; reflexivity.
Qed.

(** X12.  The calls of a run, exactly: first the three downloads of
    the window, in order; then, if and only if one of them returned
    rows, one call of [fit] on the matrix of the cleaned frame; then,
    if and only if [fit] returned, one call of [predict] on the same
    matrix.  When the window does not fit the range of [datetime] the
    run raises before any call. *)
Theorem run_call_sequence (now : datetime) :
  (clock_range now ->
   fst (run now)
   = script_downloads now
     ++ match kept_frames yf_download (script_chunks now) with
        | [] => []
        | frames =>
            let X := ObservationMatrix
                       (FeatureBuilder fill_default
                          (concat_sort_dedup sort_index frames)) in
            match hmm_fit model_config X with
            | inl _ => [Fit model_config X]
            | inr _ => [Fit model_config X; Predict X]
            end
        end)
  /\ (forall e, dt_add now (- days 729) = inl e -> run now = ([], inl e)).
Proof.
  split.
  - intros Hnow. rewrite (run_spec now Hnow).
    destruct (kept_frames _ _) as [|f frames];
      [now rewrite app_nil_r|].
    apply train_and_decode_trace.
  - intros e He. unfold Pipeline.run, main, Pipeline.load_data, bind, lift.
    now rewrite He.
Qed.

Lemma kept_frames_nil bs :
  kept_frames yf_download bs = []
  <-> forall se, In se bs -> yf_download (fst se) (snd se) = [].
Proof.
  unfold kept_frames. induction bs as [|se bs IH]; simpl.
  - split; [intros _ se []|reflexivity].
  - destruct (yf_download (fst se) (snd se)) eqn:Hd; simpl.
    + rewrite IH. split.
      * intros H se' [<-|Hin]; [assumption|now apply H].
      * intros H se' Hin. apply H. now right.
    + split; [discriminate|].
      intros H. specialize (H se (or_introl eq_refl)). congruence.
Qed.

(** X13.  At a time of the run from which the window stays in range,
    the trainer is called exactly when at least one chunk download
    returned rows.  When every download is empty the run stops with
    the [ValueError] of [pd.concat] right after the downloads. *)
Theorem trainer_called_iff_data (now : datetime) :
  clock_range now ->
  let bs := script_chunks now in
  ((exists X, In (Fit model_config X) (fst (run now)))
   <-> exists se, In se bs /\ yf_download (fst se) (snd se) <> [])
  /\ ((forall se, In se bs -> yf_download (fst se) (snd se) = []) ->
      run now = (script_downloads now, inl "ValueError"%string)).
Proof.
  intros Hnow bs. rewrite (run_spec now Hnow). fold bs.
  pose proof (kept_frames_nil bs) as Hnil.
  destruct (kept_frames yf_download bs) as [|f frames] eqn:Hk.
  - split.
    + split.
      * intros (X & [H|[H|[H|[]]]]); discriminate.
      * intros (se & Hin & Hne). exfalso. apply Hne.
        now apply (proj1 Hnil eq_refl).
    + reflexivity.
  - split.
    + split.
      * intros _.
        assert (Hex : exists df, In df (kept_frames yf_download bs))
          by (rewrite Hk; eexists; now left).
        destruct Hex as (df & Hdf). unfold kept_frames in Hdf.
        apply filter_In in Hdf. destruct Hdf as [Hdf Hne].
        apply in_map_iff in Hdf. destruct Hdf as (se & <- & Hse).
        exists se. split; [assumption|].
        intros Heq. rewrite Heq in Hne. discriminate.
      * intros _. eexists. rewrite train_and_decode_trace.
        apply in_or_app. right.
        destruct (hmm_fit _ _); now left.
    + intros Hall. apply (proj2 Hnil) in Hall. discriminate.
Qed.

Lemma dedup_from_not_nil df :
  df <> [] -> dedup_from [] df <> [].
Proof.
  destruct df as [|x df]; [congruence|].
  intros _. rewrite dedup_from_cons. simpl. discriminate.
Qed.

Lemma concat_sort_dedup_not_nil frames :
  is_index_sort sort_index ->
  (exists df, In df frames /\ df <> []) ->
  concat_sort_dedup sort_index frames <> [].
Proof.
  intros Hsort (df & Hin & Hne). apply dedup_from_not_nil.
  intros Hnil.
  assert (Hc : concat frames = []).
  { apply Permutation_nil. rewrite <- Hnil. symmetry. apply Hsort. }
  destruct df as [|b df]; [congruence|].
  assert (Hb : In b (concat frames))
    by (apply in_concat; exists (b :: df); split; [assumption|now left]).
  rewrite Hc in Hb. destruct Hb.
Qed.

Lemma concat_sort_dedup_In frames b :
  is_index_sort sort_index ->
  In b (concat_sort_dedup sort_index frames) ->
  exists df, In df frames /\ In b df.
Proof.
  intros Hsort Hin.
  apply (dedup_from_In [] (sort_index (concat frames))) in Hin.
  destruct Hin as [Hin _].
  apply (Permutation_in _
           (Permutation_sym (proj1 (Hsort (concat frames))))) in Hin.
  apply in_concat in Hin. destruct Hin as (df & H1 & H2). eauto.
Qed.

(** X14.  When loading succeeds the frame is not empty (so reading its
    first and last timestamp at line 48 cannot fail), its timestamps
    strictly increase, and every one of its rows was returned by the
    download of one of the three chunks, which are the downloads that
    were made. *)
Theorem loaded_frame_not_empty (now : datetime) (tr tr' : list event)
  (data : DataFrame) :
  is_index_sort sort_index ->
  load_data now tr = (tr', inr data) ->
  data <> []
  /\ StronglySorted Z.lt (map index data)
  /\ (forall b, In b data ->
        exists se, In se (script_chunks now)
                   /\ In b (yf_download (fst se) (snd se)))
  /\ tr' = tr ++ script_downloads now.
Proof.
  intros Hsort Hload. apply load_data_inr in Hload.
  destruct Hload as (-> & Hne & ->).
  set (bs := script_chunks now) in *.
  assert (Hkept : forall df, In df (kept_frames yf_download bs) ->
            df <> [] /\ exists se, In se bs
                         /\ df = yf_download (fst se) (snd se)).
  { intros df Hdf. unfold kept_frames in Hdf.
    apply filter_In in Hdf. destruct Hdf as [Hdf Hne'].
    apply in_map_iff in Hdf. destruct Hdf as (se & <- & Hse).
    split; [|eauto]. intros Hnil. rewrite Hnil in Hne'. discriminate. }
  split; [|split; [|split]].
  - apply concat_sort_dedup_not_nil; [assumption|].
    destruct (kept_frames yf_download bs) as [|f frames] eqn:Hk;
      [congruence|].
    exists f. split; [now left|]. apply (Hkept f). now left.
  - now apply concat_sort_dedup_increasing.
  - intros b Hb. apply concat_sort_dedup_In in Hb; [|assumption].
    destruct Hb as (df & Hdf & Hb).
    destruct (Hkept df Hdf) as [_ (se & Hse & ->)]. eauto.
  - reflexivity.
Qed.

Lemma zip_with_SRow rows : forall states,
  List.length states = List.length rows ->
  map feat (zip_with SRow rows states) = rows
  /\ map state (zip_with SRow rows states) = states.
Proof.
  induction rows as [|r rows IH]; intros [|s states] Hlen;
    try discriminate; [split; reflexivity|].
  simpl in Hlen. injection Hlen as Hlen.
  destruct (IH states Hlen) as [H1 H2]. simpl. now rewrite H1, H2.
Qed.

(** X15.  The analysis ends with a report only if [fit] and [predict]
    both returned and [predict] gave one label per row.  The report
    then has one decoded row per row of the observation matrix, in the
    same order, carrying the labels that [predict] returned; and
    whatever sort the library uses, its table holds the aggregated
    entries of these rows, each once, in descending order of mean. *)
Theorem report_of_successful_run (data : DataFrame) (tr : list event)
  (decoded : list srow) (table : list entry) :
  is_desc_sort sort_values ->
  snd (train_and_decode data tr) = inr (decoded, table) ->
  let rows := FeatureBuilder fill_default data in
  let X := ObservationMatrix rows in
  exists params states,
    hmm_fit model_config X = inr params
    /\ hmm_predict params X = inr states
    /\ List.length states = List.length rows
    /\ map feat decoded = rows
    /\ map state decoded = states
    /\ List.length decoded = List.length X
    /\ Permutation (agg mean std decoded) table
    /\ StronglySorted
         (fun a b => desc_na_last (Mean_Return a) (Mean_Return b)) table
    /\ fst (train_and_decode data tr)
       = tr ++ [Fit model_config X; Predict X].
Proof.
  intros Hsort Hok rows X. revert Hok.
  rewrite train_and_decode_cases. fold rows. fold X.
  destruct (hmm_fit model_config X) as [e|params] eqn:Hfit; [discriminate|].
  cbv zeta.
  destruct (hmm_predict params X) as [e|states] eqn:Hpred; [discriminate|].
  destruct (Nat.eqb_spec (List.length states) (List.length rows))
    as [Hlen|Hlen]; [|discriminate].
  simpl. intros Heq. injection Heq as <- <-.
  destruct (zip_with_SRow rows states Hlen) as [H1 H2].
  exists params, states.
  split; [reflexivity|]. split; [exact Hpred|]. split; [exact Hlen|].
  split; [exact H1|]. split; [exact H2|].
  split; [|split; [apply Hsort|split; [apply Hsort|]]].
  - rewrite <- (length_map feat), H1. unfold X, ObservationMatrix.
    now rewrite length_map.
  - now rewrite <- app_assoc.
Qed.

(** X16.  A frame with a single bar or none is not turned away: [fit]
    is called all the same, on an empty matrix. *)
Theorem single_bar_trains_on_empty_matrix (data : DataFrame)
  (tr : list event) :
  (List.length data <= 1)%nat ->
  exists rest, fst (train_and_decode data tr)
               = tr ++ Fit model_config [] :: rest.
Proof.
  intros Hlen.
  assert (HX : ObservationMatrix (FeatureBuilder fill_default data) = []).
  { pose proof (FeatureBuilder_timestamps fill_default data) as Hs.
    apply Subseq_length in Hs. rewrite !length_map in Hs.
    assert (Htl : List.length (tl data) = 0%nat)
      by (destruct data as [|b [|b' rest]]; simpl in *; lia).
    destruct (FeatureBuilder fill_default data); [reflexivity|].
    simpl in Hs. lia. }
  rewrite train_and_decode_trace, HX.
  destruct (hmm_fit model_config []); eexists; reflexivity.
Qed.

Lemma FeatureBuilder_returns_notna m data :
  Forall (fun r => is_nan (return_ r) = false) (FeatureBuilder m data).
Proof.
  apply Forall_forall. intros r Hr.
  apply FeatureBuilder_In in Hr.
  destruct Hr as (i & r0 & _ & _ & -> & Hf & _).
  simpl. rewrite replace_inf_finite by assumption.
  now apply is_finite_not_nan.
Qed.

(** X18.  In an analysis that ends with a report, the counts of the
    summary table add up to the number of rows of the observation
    matrix, whatever sort the library uses. *)
Theorem report_counts_cover_matrix (data : DataFrame) (tr : list event)
  (decoded : list srow) (table : list entry) :
  is_desc_sort sort_values ->
  snd (train_and_decode data tr) = inr (decoded, table) ->
  list_sum (map Count table)
  = List.length (ObservationMatrix (FeatureBuilder fill_default data)).
Proof.
  intros Hsort. rewrite train_and_decode_cases.
  set (rows := FeatureBuilder fill_default data).
  set (X := ObservationMatrix rows).
  destruct (hmm_fit model_config X) as [e|params]; [discriminate|].
  cbv zeta. destruct (hmm_predict params X) as [e|states]; [discriminate|].
  destruct (Nat.eqb_spec (List.length states) (List.length rows))
    as [Hlen|Hlen]; [|discriminate].
  simpl. intros Heq. injection Heq as <- <-.
  destruct (zip_with_SRow rows states Hlen) as [H1 H2].
  rewrite (summary_counts_total mean std sort_values Hsort).
  - rewrite <- (length_map feat), H1. unfold X, ObservationMatrix.
    now rewrite length_map.
  - apply (proj1 (Forall_map feat (fun r => is_nan (return_ r) = false)
                             (zip_with SRow rows states))).
    rewrite H1. apply FeatureBuilder_returns_notna.
Qed.

End AnyRun.

Lemma sample_clock : clock_range sample_now.
Proof. split; discriminate. Qed.

(** A downloader that never returns a row. *)
Lemma trainer_called_iff_data_witness :
  Pipeline.run (fun _ _ => []) sample_fit sample_predict insertion_sort
               sort_values_desc mean_f64 std_f64 pad sample_now
  = (script_downloads sample_now, inl "ValueError"%string).
Proof.
  apply (proj2 (trainer_called_iff_data (fun _ _ => []) sample_fit
                  sample_predict insertion_sort sort_values_desc
                  mean_f64 std_f64 pad sample_now sample_clock)).
  reflexivity.
Defined.

Lemma loaded_frame_not_empty_witness :
  concat_sort_dedup insertion_sort [Samples.hourly_bars] <> [].
Proof.
  apply (loaded_frame_not_empty sample_download insertion_sort sample_now
           [] (script_downloads sample_now)
           (concat_sort_dedup insertion_sort [Samples.hourly_bars])
           insertion_sort_ok).
  apply sample_load.
Defined.

Lemma report_of_successful_run_witness :
  let rows := FeatureBuilder pad Samples.hourly_bars in
  let X := ObservationMatrix rows in
  let table := summary mean_f64 std_f64 sort_values_desc sample_decoded in
  exists params states,
    sample_fit model_config X = inr params
    /\ sample_predict params X = inr states
    /\ List.length states = List.length rows
    /\ map feat sample_decoded = rows
    /\ map state sample_decoded = states
    /\ List.length sample_decoded = List.length X
    /\ Permutation (agg mean_f64 std_f64 sample_decoded) table
    /\ StronglySorted
         (fun a b => desc_na_last (Mean_Return a) (Mean_Return b)) table
    /\ fst (Pipeline.train_and_decode sample_fit sample_predict
              sort_values_desc mean_f64 std_f64 pad Samples.hourly_bars [])
       = [] ++ [Fit model_config X; Predict X].
Proof.
  exact (report_of_successful_run sample_fit sample_predict
           sort_values_desc mean_f64 std_f64 pad Samples.hourly_bars []
           sample_decoded
           (summary mean_f64 std_f64 sort_values_desc sample_decoded)
           sort_values_desc_ok eq_refl).
Defined.

Lemma report_counts_cover_matrix_witness :
  list_sum (map Count (summary mean_f64 std_f64 sort_values_desc
                               sample_decoded))
  = List.length (ObservationMatrix (FeatureBuilder pad Samples.hourly_bars)).
Proof.
  apply (report_counts_cover_matrix sample_fit sample_predict
           sort_values_desc mean_f64 std_f64 pad Samples.hourly_bars []
           sample_decoded
           (summary mean_f64 std_f64 sort_values_desc sample_decoded)
           sort_values_desc_ok).
  reflexivity.
Defined.

Lemma single_bar_trains_on_empty_matrix_witness :
  exists rest,
    fst (Pipeline.train_and_decode sample_fit sample_predict
           sort_values_desc mean_f64 std_f64 pad [Samples.sb0] [])
    = [] ++ Fit model_config [] :: rest.
Proof.
  apply (single_bar_trains_on_empty_matrix sample_fit sample_predict
           sort_values_desc mean_f64 std_f64 pad [Samples.sb0] []).
  apply le_n.
Defined.

Lemma run_call_sequence_witness :
  fst sample_run
  = script_downloads sample_now
    ++ [Fit model_config
          (ObservationMatrix
             (FeatureBuilder pad
                (concat_sort_dedup insertion_sort [Samples.hourly_bars])));
        Predict
          (ObservationMatrix
             (FeatureBuilder pad
                (concat_sort_dedup insertion_sort [Samples.hourly_bars])))].
Proof.
  exact (proj1 (run_call_sequence sample_download sample_fit
                  sample_predict insertion_sort sort_values_desc
                  mean_f64 std_f64 pad sample_now) sample_clock).
Defined.

End MorePipelineFacts.
